(** * drive.py: keyboard tele-operation of a RoboMaster EP

    A shallow embedding of [src/drive.py]: the [Controller] class
    (keyboard callbacks with send-on-change), the [handle_event] poll
    (telemetry logging and the armor-hit safety stop) and the pynput
    listener loop that feeds the callbacks.

    Python values are kept as Python has them: numbers are [int] or
    [float] (IEEE binary64, Rocq's primitive floats), the two-element
    velocity vectors are lists assigned by index, failing statements
    raise.  Every call on the [Commander] and on the logger is recorded,
    in order, in the trace of the world. *)

From Stdlib Require Import ZArith Floats Lia Ascii String.
From stdpp Require Import base decidable list strings.

Set Warnings "-inexact-float".
Open Scope Z_scope.

(* ================================================================== *)
(** ** Python numbers *)

Module Py.

(** A Python number: [int] (unbounded) or [float] (binary64). *)
Inductive num :=
| Int (z : Z)
| Float (f : float).

(** [float(z)]: round to nearest, ties to even. *)
Definition float_of_Z (z : Z) : float :=
  SF2Prim (binary_normalize prec emax z 0 false).

(** Exact value test [z == f] of an int against a float, the way
    CPython compares them (no rounding of [z]). *)
Definition int_float_eqb (z : Z) (f : float) : bool :=
  match Prim2SF f with
  | S754_zero _ => z =? 0
  | S754_finite s m e =>
      let mz := if s then Z.neg m else Z.pos m in
      if 0 <=? e then z =? mz * 2 ^ e
      else (mz mod 2 ^ (- e) =? 0) && (z =? mz / 2 ^ (- e))
  | S754_infinity _ | S754_nan => false
  end.

(** [x == y] *)
Definition eqb (x y : num) : bool :=
  match x, y with
  | Int a, Int b => a =? b
  | Float a, Float b => PrimFloat.eqb a b
  | Int a, Float b => int_float_eqb a b
  | Float a, Int b => int_float_eqb b a
  end.

(** [-x] *)
Definition neg (x : num) : num :=
  match x with
  | Int z => Int (- z)
  | Float f => Float (- f)%float
  end.

(** [l1 == l2] on lists: same length and pairwise [==].  (CPython
    first tests the items for identity; that only matters for NaN.) *)
Fixpoint list_eqb (l1 l2 : list num) : bool :=
  match l1, l2 with
  | [], [] => true
  | x :: l1', y :: l2' => eqb x y && list_eqb l1' l2'
  | _, _ => false
  end.

(** [l1 != l2] *)
Definition list_ne (l1 l2 : list num) : bool := negb (list_eqb l1 l2).

(** A number that equals itself, that is, anything but a float NaN. *)
Definition self_equal (x : num) : Prop := eqb x x = true.

End Py.

Abbreviation num := Py.num.

(** Exceptions the modelled statements can raise. *)
Inductive exn :=
| IndexError      (* list index out of range *)
| OverflowError   (* int too large to convert to float *)
| ValueError      (* int() of a non-digit *)
| AttributeError  (* no such attribute *)
| Empty.          (* queue.Empty *)

Inductive res (A : Type) :=
| Ok (a : A)
| Raise (e : exn).
Arguments Ok {A} a.
Arguments Raise {A} e.

(** [x * y]; an int operand of a float product is converted first and
    raises when it does not fit a float. *)
Definition py_mul (x y : num) : res num :=
  match x, y with
  | Py.Int a, Py.Int b => Ok (Py.Int (a * b))
  | Py.Float a, Py.Float b => Ok (Py.Float (a * b)%float)
  | Py.Int a, Py.Float b =>
      let a' := Py.float_of_Z a in
      if PrimFloat.is_infinity a' then Raise OverflowError
      else Ok (Py.Float (a' * b)%float)
  | Py.Float a, Py.Int b =>
      let b' := Py.float_of_Z b in
      if PrimFloat.is_infinity b' then Raise OverflowError
      else Ok (Py.Float (a * b')%float)
  end.

(* ================================================================== *)
(** ** Keys (pynput) *)

(** [pynput.keyboard.Key]: the special keys; the members the program
    tests and a few it does not. *)
Module Key.
Inductive t := ctrl | space | up | down | left | right
             | shift | alt | esc | enter | tab | backspace.
End Key.

(** What the listener hands to a callback: a special key or a
    [KeyCode] carrying its character.  The tests [key == Key.ctrl] and
    [key == KeyCode(char='w')] of the program are equality on this
    type: a special key equals no [KeyCode], and two [KeyCode]s with a
    character are equal when the characters are. *)
Inductive key :=
| Special (k : Key.t)
| KeyCode (char : ascii).

Coercion Special : Key.t >-> key.

#[global] Instance Key_eq_dec : EqDecision Key.t.
Proof. solve_decision. Defined.
#[global] Instance key_eq_dec : EqDecision key.
Proof. solve_decision. Defined.

(** [int(c)] for a one-character string. *)
Definition int_of_char (c : ascii) : res Z :=
  let n := Z.of_nat (nat_of_ascii c) in
  if (48 <=? n) && (n <=? 57) then Ok (n - 48) else Raise ValueError.

(* ================================================================== *)
(** ** Messages from the robot (robomasterpy) *)

(** Periodic telemetry; only logged. *)
Inductive push :=
| ChassisPush (raw : string)
| GimbalPush (raw : string).

Inductive event :=
| ArmorHitEvent (index hit_type : Z)
| SoundApplauseEvent (count : Z)
| OtherEvent (raw : string).

(** [type(event) == rm.ArmorHitEvent] *)
Definition is_ArmorHitEvent (e : event) : bool :=
  match e with ArmorHitEvent _ _ => true | _ => false end.

(* ================================================================== *)
(** ** Observable effects *)

Inductive pyobj :=
| ONum (x : num)
| OKey (k : key)
| OPush (p : push)
| OEvent (e : event).

Inductive level := DEBUG | INFO.

(** One call on an external collaborator: the [Commander] or the
    logger. *)
Inductive effect :=
| chassis_speed (x y z : num)
| gimbal_speed (pitch yaw : num)
| blaster_fire
| log (lvl : level) (fmt : string) (args : list pyobj).

Definition is_command (e : effect) : bool :=
  match e with log _ _ _ => false | _ => true end.

(** The commands of a trace, logging dropped. *)
Definition commands (tr : list effect) : list effect := List.filter is_command tr.

Definition is_chassis_speed (e : effect) : bool :=
  match e with chassis_speed _ _ _ => true | _ => false end.

Definition is_gimbal_speed (e : effect) : bool :=
  match e with gimbal_speed _ _ => true | _ => false end.

(* ================================================================== *)
(** ** The Controller object and the world around it *)

Record Controller := mkController {
  gear : Z;
  delta_v : num;
  delta_d : num;
  v : list num;
  previous_v : list num;
  v_gimbal : list num;
  previous_v_gimbal : list num;
  ctrl_pressed : bool;
}.

(** Everything the two workers touch: the controller (owned by the
    keyboard worker; its handlers run under [_mu], one at a time, so a
    handler is one step), the two queues (drained by [handle_event]),
    whether the pynput listener still runs, and the effects so far,
    oldest first.  Calls on the commander are taken to return; a
    transport failure is outside the model. *)
Record World := mkWorld {
  controller : Controller;
  push_queue : list push;
  event_queue : list event;
  listening : bool;
  out : list effect;
}.

Definition QUEUE_SIZE : nat := 10.

Definition UNIT_DELTA_SPEED : num := Py.Float 0.2.
Definition UNIT_DELTA_DEGREE : num := Py.Int 20.

(** [Controller.__init__] *)
Definition __init__ : Controller :=
  {| gear := 1;
     delta_v := UNIT_DELTA_SPEED;
     delta_d := UNIT_DELTA_DEGREE;
     v := [Py.Int 0; Py.Int 0];
     previous_v := [Py.Int 0; Py.Int 0];
     v_gimbal := [Py.Int 0; Py.Int 0];
     previous_v_gimbal := [Py.Int 0; Py.Int 0];
     ctrl_pressed := false |}.

(** The world when the workers start. *)
Definition init : World :=
  {| controller := __init__;
     push_queue := [];
     event_queue := [];
     listening := true;
     out := [] |}.

(** Attribute assignments. *)
Definition with_gear (g : Z) (c : Controller) : Controller :=
  mkController g (delta_v c) (delta_d c) (v c) (previous_v c)
               (v_gimbal c) (previous_v_gimbal c) (ctrl_pressed c).
Definition with_delta_v (x : num) (c : Controller) : Controller :=
  mkController (gear c) x (delta_d c) (v c) (previous_v c)
               (v_gimbal c) (previous_v_gimbal c) (ctrl_pressed c).
Definition with_delta_d (x : num) (c : Controller) : Controller :=
  mkController (gear c) (delta_v c) x (v c) (previous_v c)
               (v_gimbal c) (previous_v_gimbal c) (ctrl_pressed c).
Definition with_v (l : list num) (c : Controller) : Controller :=
  mkController (gear c) (delta_v c) (delta_d c) l (previous_v c)
               (v_gimbal c) (previous_v_gimbal c) (ctrl_pressed c).
Definition with_previous_v (l : list num) (c : Controller) : Controller :=
  mkController (gear c) (delta_v c) (delta_d c) (v c) l
               (v_gimbal c) (previous_v_gimbal c) (ctrl_pressed c).
Definition with_v_gimbal (l : list num) (c : Controller) : Controller :=
  mkController (gear c) (delta_v c) (delta_d c) (v c) (previous_v c)
               l (previous_v_gimbal c) (ctrl_pressed c).
Definition with_previous_v_gimbal (l : list num) (c : Controller) : Controller :=
  mkController (gear c) (delta_v c) (delta_d c) (v c) (previous_v c)
               (v_gimbal c) l (ctrl_pressed c).
Definition with_ctrl_pressed (b : bool) (c : Controller) : Controller :=
  mkController (gear c) (delta_v c) (delta_d c) (v c) (previous_v c)
               (v_gimbal c) (previous_v_gimbal c) b.

Definition with_controller (c : Controller) (w : World) : World :=
  mkWorld c (push_queue w) (event_queue w) (listening w) (out w).
Definition with_push_queue (q : list push) (w : World) : World :=
  mkWorld (controller w) q (event_queue w) (listening w) (out w).
Definition with_event_queue (q : list event) (w : World) : World :=
  mkWorld (controller w) (push_queue w) q (listening w) (out w).
Definition with_listening (b : bool) (w : World) : World :=
  mkWorld (controller w) (push_queue w) (event_queue w) b (out w).
Definition with_out (tr : list effect) (w : World) : World :=
  mkWorld (controller w) (push_queue w) (event_queue w) (listening w) tr.

(* ================================================================== *)
(** ** Statements: state, trace and exceptions *)

(** A statement runs in a world and either completes with a value or
    raises; the world it leaves behind is kept in both cases. *)
Definition M (A : Type) : Type := World -> res A * World.

Definition ret {A} (a : A) : M A := fun w => (Ok a, w).

Definition raise {A} (e : exn) : M A := fun w => (Raise e, w).

Definition bind {A B} (m : M A) (k : A -> M B) : M B :=
  fun w =>
    match m w with
    | (Ok a, w') => k a w'
    | (Raise e, w') => (Raise e, w')
    end.

Declare Scope stmt_scope.
Delimit Scope stmt_scope with stmt.
Bind Scope stmt_scope with M.
Notation "x <- m ;; k" := (bind m (fun x => k))
  (at level 100, m at next level, right associativity) : stmt_scope.
Notation "m ;; k" := (bind m (fun _ => k))
  (at level 100, right associativity) : stmt_scope.
Open Scope stmt_scope.

Definition lift {A} (r : res A) : M A :=
  match r with Ok a => ret a | Raise e => raise e end.

(** [try: m except queue.Empty: pass] *)
Definition try_except_Empty (m : M unit) : M unit :=
  fun w =>
    match m w with
    | (Raise Empty, w') => (Ok tt, w')
    | r => r
    end.

(** [self] *)
Definition self : M Controller := fun w => (Ok (controller w), w).

(** [self.<attr> = ...] *)
Definition set_self (f : Controller -> Controller) : M unit :=
  fun w => (Ok tt, with_controller (f (controller w)) w).

(** A call on the commander or the logger. *)
Definition call (e : effect) : M unit :=
  fun w => (Ok tt, with_out (out w ++ [e]) w).

(** [l[i]] *)
Definition getitem (l : list num) (i : nat) : M num :=
  match l !! i with
  | Some x => ret x
  | None => raise IndexError
  end.

(** [l[i] = x] *)
Definition setitem (l : list num) (i : nat) (x : num) : M (list num) :=
  if bool_decide (i < length l)%nat then ret (<[i:=x]> l) else raise IndexError.

(** [self.v[i] = x] and [self.v_gimbal[i] = x], [x] read from [self]. *)
Definition v_setitem (i : nat) (x : Controller -> num) : M unit :=
  c <- self;;
  l <- setitem (v c) i (x c);;
  set_self (with_v l).

Definition v_gimbal_setitem (i : nat) (x : Controller -> num) : M unit :=
  c <- self;;
  l <- setitem (v_gimbal c) i (x c);;
  set_self (with_v_gimbal l).

(** [queue.get(timeout=QUEUE_TIMEOUT)]: the oldest message that is in
    the queue by the end of the timeout, or [queue.Empty]. *)
Definition push_queue_get : M push :=
  fun w =>
    match push_queue w with
    | [] => (Raise Empty, w)
    | p :: q => (Ok p, with_push_queue q w)
    end.

Definition event_queue_get : M event :=
  fun w =>
    match event_queue w with
    | [] => (Raise Empty, w)
    | e :: q => (Ok e, with_event_queue q w)
    end.

(** [key.char] *)
Definition char_of (k : key) : M ascii :=
  match k with
  | KeyCode c => ret c
  | Special _ => raise AttributeError
  end.

(* ================================================================== *)
(** ** The program *)

Definition zero : num := Py.Int 0.

(** [handle_event], lines 31-46. *)
Definition handle_event : M unit :=
  try_except_Empty (
    p <- push_queue_get;;
    call (log INFO "push: %s" [OPush p]));;
  try_except_Empty (
    e <- event_queue_get;;
    (if is_ArmorHitEvent e then call (chassis_speed zero zero zero)
     else ret tt);;
    call (log INFO "event: %s" [OEvent e])).

(** [Controller.send_command], lines 132-140. *)
Definition send_command : M unit :=
  c <- self;;
  (if Py.list_ne (v c) (previous_v c) then
     set_self (with_previous_v (v c));;
     x <- getitem (v c) 0;;
     y <- getitem (v c) 1;;
     call (log DEBUG "chassis speed: x: %s, y: %s" [ONum x; ONum y]);;
     call (chassis_speed x y zero)
   else ret tt);;
  c <- self;;
  (if Py.list_ne (v_gimbal c) (previous_v_gimbal c) then
     p <- getitem (v_gimbal c) 0;;
     y <- getitem (v_gimbal c) 1;;
     call (log DEBUG "gimbal speed: pitch: %s, yaw: %s" [ONum p; ONum y]);;
     set_self (with_previous_v_gimbal (v_gimbal c));;
     call (gimbal_speed p y)
   else ret tt).

(** What a callback returns: [None], or [False] to stop the listener. *)
Inductive retval := PyNone | PyFalse.

(** [Controller.on_press], lines 67-101. *)
Definition on_press (key : key) : M retval :=
  call (log DEBUG "pressed: %s" [OKey key]);;
  if bool_decide (key = Key.ctrl) then
    set_self (with_ctrl_pressed true);;
    ret PyNone
  else
  c <- self;;
  if ctrl_pressed c && bool_decide (key = KeyCode "c") then
    set_self (with_v [zero; zero]);;
    set_self (with_v_gimbal [zero; zero]);;
    send_command;;
    ret PyFalse
  else
  if bool_decide (key = Key.space) then
    call blaster_fire;;
    ret PyNone
  else
    (if bool_decide (key = KeyCode "w") then v_setitem 0 delta_v
     else if bool_decide (key = KeyCode "s") then v_setitem 0 (fun c => Py.neg (delta_v c))
     else if bool_decide (key = KeyCode "a") then v_setitem 1 (fun c => Py.neg (delta_v c))
     else if bool_decide (key = KeyCode "d") then v_setitem 1 delta_v
     else if bool_decide (key = Key.up) then v_gimbal_setitem 0 delta_d
     else if bool_decide (key = Key.down) then v_gimbal_setitem 0 (fun c => Py.neg (delta_d c))
     else if bool_decide (key = Key.left) then v_gimbal_setitem 1 (fun c => Py.neg (delta_d c))
     else if bool_decide (key = Key.right) then v_gimbal_setitem 1 delta_d
     else ret tt);;
    send_command;;
    ret PyNone.

(** [Controller._update_gear], lines 103-106. *)
Definition _update_gear (g : Z) : M unit :=
  set_self (with_gear g);;
  c <- self;;
  x <- lift (py_mul (Py.Int (gear c)) UNIT_DELTA_SPEED);;
  set_self (with_delta_v x);;
  c <- self;;
  d <- lift (py_mul (Py.Int (gear c)) UNIT_DELTA_DEGREE);;
  set_self (with_delta_d d).

Definition gear_keys : list key :=
  [KeyCode "1"; KeyCode "2"; KeyCode "3"; KeyCode "4"; KeyCode "5"].

(** [Controller.on_release], lines 108-130. *)
Definition on_release (key : key) : M retval :=
  call (log DEBUG "released: %s" [OKey key]);;
  if bool_decide (key = Key.ctrl) then
    set_self (with_ctrl_pressed false);;
    ret PyNone
  else
  if bool_decide (key ∈ gear_keys) then
    ch <- char_of key;;
    g <- lift (int_of_char ch);;
    _update_gear g;;
    ret PyNone
  else
    (if bool_decide (key ∈ [KeyCode "w"; KeyCode "s"]) then v_setitem 0 (fun _ => zero)
     else if bool_decide (key ∈ [KeyCode "a"; KeyCode "d"]) then v_setitem 1 (fun _ => zero)
     else if bool_decide (key ∈ [Special Key.up; Special Key.down]) then v_gimbal_setitem 0 (fun _ => zero)
     else if bool_decide (key ∈ [Special Key.left; Special Key.right]) then v_gimbal_setitem 1 (fun _ => zero)
     else ret tt);;
    send_command;;
    ret PyNone.

(* ================================================================== *)
(** ** The listener and the workers *)

Inductive KeyEvent :=
| Down (k : key)
| Up (k : key).

Definition callback (e : KeyEvent) : M retval :=
  match e with
  | Down k => on_press k
  | Up k => on_release k
  end.

(** pynput's [Listener]: each key event goes to its callback while the
    listener runs; a callback that returns [False], or raises, stops
    it. *)
Definition deliver (e : KeyEvent) : M unit :=
  fun w =>
    if listening w then
      match callback e w with
      | (Ok PyNone, w') => (Ok tt, w')
      | (Ok PyFalse, w') => (Ok tt, with_listening false w')
      | (Raise x, w') => (Raise x, with_listening false w')
      end
    else (Ok tt, w).

Fixpoint listener (events : list KeyEvent) : M unit :=
  match events with
  | [] => ret tt
  | e :: events' => deliver e;; listener events'
  end.

(** [control], lines 143-148: a fresh controller, then the listener
    until it stops. *)
Definition control (events : list KeyEvent) : M unit :=
  set_self (fun _ => __init__);;
  (fun w => (Ok tt, with_listening true w));;
  listener events.

(** [Queue(QUEUE_SIZE).put]: a producer adds at the tail while there is
    room (it waits otherwise). *)
Definition put {A} (q : list A) (x : A) : list A :=
  if bool_decide (length q < QUEUE_SIZE)%nat then q ++ [x] else q.

(** What can happen next in the running system: a key event reaches
    the keyboard worker, the event worker polls once, or one of the
    robomasterpy listeners queues a message. *)
Inductive action :=
| Keyboard (e : KeyEvent)
| Poll
| PushArrives (p : push)
| EventArrives (e : event).

Definition step (a : action) : M unit :=
  match a with
  | Keyboard e => deliver e
  | Poll => handle_event
  | PushArrives p => fun w => (Ok tt, with_push_queue (put (push_queue w) p) w)
  | EventArrives e => fun w => (Ok tt, with_event_queue (put (event_queue w) e) w)
  end.

(** The world after a schedule of actions; a worker that raised is
    gone, the rest of the system goes on. *)
Fixpoint run (acts : list action) (w : World) : World :=
  match acts with
  | [] => w
  | a :: acts' => run acts' (snd (step a w))
  end.

Definition reachable (w : World) : Prop := exists acts, w = run acts init.

(* ================================================================== *)
(** ** Vocabulary of the properties *)

(** The state left by a statement, and the effects it added. *)
Definition after {A} (m : M A) (w : World) : World := snd (m w).

Definition completes {A} (m : M A) (w : World) : Prop :=
  exists a, fst (m w) = Ok a.

(** [x] is 0 or plus or minus [g * unit], the product as the program
    computes it. *)
Definition at_gear (unit : num) (g : Z) (x : num) : Prop :=
  x = zero \/
  exists m, py_mul (Py.Int g) unit = Ok m /\ (x = m \/ x = Py.neg m).

(** The same for some gear the digit keys can select. *)
Definition at_some_gear (unit x : num) : Prop :=
  exists g, 1 <= g <= 5 /\ at_gear unit g x.

(** A two-element vector of such values. *)
Definition in_range (unit : num) (l : list num) : Prop :=
  exists x y, l = [x; y] /\ at_some_gear unit x /\ at_some_gear unit y.

(** The shape of the controller at any time: the gear is one of 1..5,
    the two magnitudes are the products for that gear, and the four
    vectors hold values some gear produces. *)
Record Ranges (c : Controller) : Prop := mkRanges {
  rg_gear : 1 <= gear c <= 5;
  rg_delta_v : py_mul (Py.Int (gear c)) UNIT_DELTA_SPEED = Ok (delta_v c);
  rg_delta_d : py_mul (Py.Int (gear c)) UNIT_DELTA_DEGREE = Ok (delta_d c);
  rg_v : in_range UNIT_DELTA_SPEED (v c);
  rg_previous_v : in_range UNIT_DELTA_SPEED (previous_v c);
  rg_v_gimbal : in_range UNIT_DELTA_DEGREE (v_gimbal c);
  rg_previous_v_gimbal : in_range UNIT_DELTA_DEGREE (previous_v_gimbal c);
}.

(** The last-sent vectors are the current ones. *)
Definition Synced (c : Controller) : Prop :=
  previous_v c = v c /\ previous_v_gimbal c = v_gimbal c.

(** What holds of the controller between two handlers. *)
Definition Inv (c : Controller) : Prop := Ranges c /\ Synced c.

(** The effects [send_command] adds for the chassis and for the gimbal
    when the vectors are [x, y] and [p, q]. *)
Definition chassis_effects (changed : bool) (x y : num) : list effect :=
  if changed
  then [log DEBUG "chassis speed: x: %s, y: %s" [ONum x; ONum y]; chassis_speed x y zero]
  else [].

Definition gimbal_effects (changed : bool) (p q : num) : list effect :=
  if changed
  then [log DEBUG "gimbal speed: pitch: %s, yaw: %s" [ONum p; ONum q]; gimbal_speed p q]
  else [].

(** The chassis-speed and the gimbal-speed commands of a trace. *)
Definition chassis_commands (tr : list effect) : list effect :=
  List.filter is_chassis_speed tr.

Definition gimbal_commands (tr : list effect) : list effect :=
  List.filter is_gimbal_speed tr.

(** An effect that is not a chassis-speed command with a rotation. *)
Definition no_rotation (e : effect) : Prop :=
  match e with
  | chassis_speed _ _ z => z = zero
  | _ => True
  end.

(** A statement that, from any world and whether it completes or
    raises, only adds effects satisfying [P] to the trace. *)
Definition emits (P : effect -> Prop) {A} (m : M A) : Prop :=
  forall w, exists fx, out (after m w) = out w ++ fx /\ Forall P fx.

(** What one poll logs and commands for the heads of the two queues. *)
Definition poll_push_effects (q : list push) : list effect :=
  match q with
  | [] => []
  | p :: _ => [log INFO "push: %s" [OPush p]]
  end.

Definition poll_event_effects (q : list event) : list effect :=
  match q with
  | [] => []
  | e :: _ =>
      (if is_ArmorHitEvent e then [chassis_speed zero zero zero] else [])
        ++ [log INFO "event: %s" [OEvent e]]
  end.

(** The controller [send_command] leaves, and the effects it adds. *)
Definition sent (c : Controller) : Controller :=
  with_previous_v_gimbal
    (if Py.list_ne (v_gimbal c) (previous_v_gimbal c)
     then v_gimbal c else previous_v_gimbal c)
    (with_previous_v
       (if Py.list_ne (v c) (previous_v c) then v c else previous_v c) c).

Definition send_effects (c : Controller) : list effect :=
  match v c, v_gimbal c with
  | [x; y], [p; q] =>
      chassis_effects (Py.list_ne (v c) (previous_v c)) x y
        ++ gimbal_effects (Py.list_ne (v_gimbal c) (previous_v_gimbal c)) p q
  | _, _ => []
  end.

(** The keys that move an axis, and the component each one drives. *)
Definition axis_keys : list key :=
  [KeyCode "w"; KeyCode "s"; KeyCode "a"; KeyCode "d";
   Special Key.up; Special Key.down; Special Key.left; Special Key.right].

Inductive axis := X | Y | Pitch | Yaw.

Definition axis_of (k : key) : option axis :=
  if bool_decide (k ∈ [KeyCode "w"; KeyCode "s"]) then Some X
  else if bool_decide (k ∈ [KeyCode "a"; KeyCode "d"]) then Some Y
  else if bool_decide (k ∈ [Special Key.up; Special Key.down]) then Some Pitch
  else if bool_decide (k ∈ [Special Key.left; Special Key.right]) then Some Yaw
  else None.

Definition read (a : axis) (c : Controller) : option num :=
  match a with
  | X => v c !! 0%nat
  | Y => v c !! 1%nat
  | Pitch => v_gimbal c !! 0%nat
  | Yaw => v_gimbal c !! 1%nat
  end.

Definition component (k : key) (c : Controller) : option num :=
  match axis_of k with
  | Some a => read a c
  | None => None
  end.

Definition key_of (e : KeyEvent) : key :=
  match e with Down k | Up k => k end.

(** The quit chord: 'c' goes down while ctrl is held. *)
Definition is_quit_chord (e : KeyEvent) (c : Controller) : Prop :=
  e = Down (KeyCode "c") /\ ctrl_pressed c = true.

(** Both vectors have their two elements. *)
Definition two_vectors (c : Controller) : Prop :=
  length (v c) = 2%nat /\ length (v_gimbal c) = 2%nat.

Definition unit_of (k : key) : num :=
  if bool_decide (k ∈ [KeyCode "w"; KeyCode "s"; KeyCode "a"; KeyCode "d"])
  then UNIT_DELTA_SPEED else UNIT_DELTA_DEGREE.

(** Every key some branch of a handler tests for. *)
Definition mapped_keys : list key :=
  axis_keys ++ [Special Key.ctrl; Special Key.space] ++ gear_keys ++ [KeyCode "c"].

(** Every component is 0 or plus or minus the magnitude of the current
    gear. *)
Definition velocities_at_gear (c : Controller) : Prop :=
  Forall (at_gear UNIT_DELTA_SPEED (gear c)) (v c) /\
  Forall (at_gear UNIT_DELTA_DEGREE (gear c)) (v_gimbal c).

(** Every component is 0 or plus or minus the magnitude of one of the
    gears 1..5. *)
Definition velocities_at_some_gear (c : Controller) : Prop :=
  Forall (at_some_gear UNIT_DELTA_SPEED) (v c) /\
  Forall (at_some_gear UNIT_DELTA_DEGREE) (v_gimbal c).

(** A speed command whose components are values some gear produces;
    any other effect. *)
Definition within_gears (e : effect) : Prop :=
  match e with
  | chassis_speed x y _ =>
      at_some_gear UNIT_DELTA_SPEED x /\ at_some_gear UNIT_DELTA_SPEED y
  | gimbal_speed p q =>
      at_some_gear UNIT_DELTA_DEGREE p /\ at_some_gear UNIT_DELTA_DEGREE q
  | _ => True
  end.

(** The last gimbal command of the trace carries the vector [l]; with
    no gimbal command yet, [l] is at rest. *)
Definition gimbal_told (tr : list effect) (l : list num) : Prop :=
  match last (gimbal_commands tr) with
  | None => l = [zero; zero]
  | Some e => exists p q, l = [p; q] /\ e = gimbal_speed p q
  end.

(** The same for the chassis. *)
Definition chassis_told (tr : list effect) (l : list num) : Prop :=
  match last (chassis_commands tr) with
  | None => l = [zero; zero]
  | Some e => exists x y, l = [x; y] /\ e = chassis_speed x y zero
  end.

(** The last chassis command is a stop, or it carries the vector
    [l]. *)
Definition chassis_told_or_stopped (tr : list effect) (l : list num) : Prop :=
  last (chassis_commands tr) = Some (chassis_speed zero zero zero) \/
  chassis_told tr l.

(** A schedule in which the robot reports no armor hit. *)
Definition no_armor_hit (acts : list action) : Prop :=
  Forall (fun a => match a with
                   | EventArrives (ArmorHitEvent _ _) => False
                   | _ => True
                   end) acts.

(** Keys a handler tests for in one direction only, in the direction
    it does not test: a digit going down, fire or 'c' going up, and 'c'
    going down without ctrl. *)
Definition other_direction (e : KeyEvent) (c : Controller) : Prop :=
  match e with
  | Down k => k ∈ gear_keys \/ (k = KeyCode "c" /\ ctrl_pressed c = false)
  | Up k => k = Special Key.space \/ k = KeyCode "c"
  end.

(** What a world keeps under every action: two-element vectors, and a
    robot that was told the last-sent vectors, or stopped by an armor
    hit. *)
Record Told (w : World) : Prop := mkTold {
  told_two : two_vectors (controller w);
  told_gimbal : gimbal_told (out w) (previous_v_gimbal (controller w));
  told_chassis : chassis_told_or_stopped (out w) (previous_v (controller w));
}.

(** The same with no armor hit drawn or waiting. *)
Record ToldExactly (w : World) : Prop := mkToldExactly {
  exact_two : two_vectors (controller w);
  exact_chassis : chassis_told (out w) (previous_v (controller w));
  exact_queue : Forall (fun e => is_ArmorHitEvent e = false) (event_queue w);
}.

(* ================================================================== *)
(** ** Basic facts *)

Lemma with_controller_id w : with_controller (controller w) w = w.
Proof. by destruct w. Qed.

Lemma commands_app tr1 tr2 : commands (tr1 ++ tr2) = commands tr1 ++ commands tr2.
Proof. apply List.filter_app. Qed.

(** [send_command] on two-element vectors, in closed form. *)
Lemma send_command_eq w :
  length (v (controller w)) = 2%nat ->
  length (v_gimbal (controller w)) = 2%nat ->
  send_command w =
    (Ok tt,
     with_out (out w ++ send_effects (controller w))
       (with_controller (sent (controller w)) w)).
Proof.
  destruct w as [[g dv dd vv pv vg pvg cp] pq eq li tr]; simpl.
  intros Hv Hg.
  destruct vv as [|x [|y [|]]]; try discriminate Hv.
  destruct vg as [|p [|q [|]]]; try discriminate Hg.
  unfold send_command, bind, self, set_self, call, getitem, ret,
    send_effects, sent; simpl.
  destruct (Py.list_ne [x; y] pv); simpl;
    destruct (Py.list_ne [p; q] pvg); simpl;
    unfold with_out, with_controller; simpl;
    rewrite <- ?app_assoc, ?app_nil_r; reflexivity.
Qed.

Lemma list_ne_refl l : Forall Py.self_equal l -> Py.list_ne l l = false.
Proof.
  unfold Py.list_ne. induction 1 as [|x l Hx _ IH]; simpl; [done|].
  rewrite Hx. simpl. exact IH.
Qed.

(** C1: whenever [send_command] runs on two-element vectors it
    completes; it issues a chassis-speed command exactly when [v]
    differs from [previous_v] at the call, and [previous_v] is then the
    vector that was sent; the same holds for the gimbal pair, on its
    own.  Called again on the same velocities (none of them NaN) it
    issues nothing and changes nothing: a value reached twice in a row
    is commanded once. *)
Theorem send_command_on_change w x y p q :
  v (controller w) = [x; y] ->
  v_gimbal (controller w) = [p; q] ->
  let c := controller w in
  let cv := Py.list_ne (v c) (previous_v c) in
  let cg := Py.list_ne (v_gimbal c) (previous_v_gimbal c) in
  exists w',
    send_command w = (Ok tt, w') /\
    commands (out w') =
      commands (out w)
        ++ (if cv then [chassis_speed x y zero] else [])
        ++ (if cg then [gimbal_speed p q] else []) /\
    previous_v (controller w') = (if cv then [x; y] else previous_v c) /\
    previous_v_gimbal (controller w') = (if cg then [p; q] else previous_v_gimbal c) /\
    v (controller w') = [x; y] /\
    v_gimbal (controller w') = [p; q] /\
    (Forall Py.self_equal [x; y; p; q] -> send_command w' = (Ok tt, w')).
Proof.
  intros Hv Hg c cv cg. subst c cv cg.
  rewrite send_command_eq by (by rewrite ?Hv, ?Hg).
  eexists. split; [reflexivity|].
  unfold send_effects, sent. rewrite Hv, Hg.
  remember (Py.list_ne [x; y] (previous_v (controller w))) as cv eqn:Ecv.
  remember (Py.list_ne [p; q] (previous_v_gimbal (controller w))) as cg eqn:Ecg.
  simpl. repeat split.
  - rewrite !commands_app. f_equal. f_equal; [by destruct cv | by destruct cg].
  - exact Hv.
  - exact Hg.
  - intros Hne.
    assert (Hxy : Py.list_ne [x; y] [x; y] = false).
    { apply list_ne_refl. by inversion Hne as [|? ? ? H1]; inversion H1; repeat constructor. }
    assert (Hpq : Py.list_ne [p; q] [p; q] = false).
    { apply list_ne_refl.
      inversion Hne as [|? ? _ H1]; inversion H1 as [|? ? _ H2]. exact H2. }
    rewrite send_command_eq by (simpl; by rewrite ?Hv, ?Hg).
    unfold send_effects, sent. simpl. rewrite Hv, Hg.
    replace (Py.list_ne [x; y] (if cv then [x; y] else previous_v (controller w)))
      with false by (destruct cv; congruence).
    replace (Py.list_ne [p; q] (if cg then [p; q] else previous_v_gimbal (controller w)))
      with false by (destruct cg; congruence).
    simpl. rewrite app_nil_r.
    destruct w as [[] ? ? ? ?]; simpl in *.
    destruct cv, cg; reflexivity.
Qed.

(** [handle_event] in closed form: it never raises, takes the head of
    each queue and leaves the controller alone. *)
Lemma handle_event_eq w :
  handle_event w =
    (Ok tt,
     mkWorld (controller w) (tail (push_queue w)) (tail (event_queue w))
             (listening w)
             (out w ++ poll_push_effects (push_queue w)
                    ++ poll_event_effects (event_queue w))).
Proof.
  destruct w as [c pq eq li tr].
  unfold handle_event, bind, try_except_Empty, push_queue_get, event_queue_get,
    call, ret; simpl.
  destruct pq as [|p pq]; simpl;
    (destruct eq as [|e eq]; simpl; [|destruct (is_ArmorHitEvent e); simpl]);
    unfold with_out; simpl; rewrite <- ?app_assoc, ?app_nil_r; reflexivity.
Qed.

(** *** Effects a statement can add *)

Section Emits.
Context (P : effect -> Prop).

Lemma emits_ret {A} (a : A) : emits P (ret a).
Proof. intros w. exists []. by rewrite app_nil_r. Qed.

Lemma emits_raise {A} (e : exn) : emits P (@raise A e).
Proof. intros w. exists []. by rewrite app_nil_r. Qed.

Lemma emits_lift {A} (r : res A) : emits P (lift r).
Proof. destruct r; [apply emits_ret | apply emits_raise]. Qed.

Lemma emits_self : emits P self.
Proof. intros w. exists []. by rewrite app_nil_r. Qed.

Lemma emits_set_self f : emits P (set_self f).
Proof. intros w. exists []. by rewrite app_nil_r. Qed.

Lemma emits_call e : P e -> emits P (call e).
Proof. intros He w. exists [e]. split; [done | by constructor]. Qed.

Lemma emits_bind {A B} (m : M A) (k : A -> M B) :
  emits P m -> (forall a, emits P (k a)) -> emits P (bind m k).
Proof.
  intros Hm Hk w. destruct (Hm w) as (fx & E & Hfx).
  unfold after, bind in *. destruct (m w) as [[a|e] w1]; simpl in *.
  - destruct (Hk a w1) as (fx' & E' & Hfx'). unfold after in E'.
    exists (fx ++ fx'). rewrite E', E, app_assoc. split; [done|].
    by apply Forall_app.
  - by exists fx.
Qed.

Lemma emits_getitem l i : emits P (getitem l i).
Proof. unfold getitem. destruct (l !! i); [apply emits_ret | apply emits_raise]. Qed.

Lemma emits_setitem l i x : emits P (setitem l i x).
Proof. unfold setitem. case_bool_decide; [apply emits_ret | apply emits_raise]. Qed.

Lemma emits_v_setitem i x : emits P (v_setitem i x).
Proof.
  unfold v_setitem. apply emits_bind; [apply emits_self | intros c].
  apply emits_bind; [apply emits_setitem | intros l; apply emits_set_self].
Qed.

Lemma emits_v_gimbal_setitem i x : emits P (v_gimbal_setitem i x).
Proof.
  unfold v_gimbal_setitem. apply emits_bind; [apply emits_self | intros c].
  apply emits_bind; [apply emits_setitem | intros l; apply emits_set_self].
Qed.

Lemma emits_char_of k : emits P (char_of k).
Proof. destruct k; [apply emits_raise | apply emits_ret]. Qed.
End Emits.

Create HintDb emits.
#[local] Hint Resolve emits_ret emits_raise emits_lift emits_self emits_set_self
  emits_getitem emits_setitem emits_v_setitem emits_v_gimbal_setitem
  emits_char_of : emits.

(** Breaks a statement down to its calls. *)
Ltac emits_steps :=
  repeat first
    [ apply emits_bind; [|intros ?]
    | match goal with |- emits _ (if ?b then _ else _) => destruct b end
    | solve [auto with emits]
    | apply emits_call; simpl ].

Lemma emits_send_command (P : effect -> Prop) :
  (forall lvl fmt args, P (log lvl fmt args)) ->
  (forall x y, P (chassis_speed x y zero)) ->
  (forall p q, P (gimbal_speed p q)) ->
  emits P send_command.
Proof. intros Hlog Hc Hg. unfold send_command. emits_steps; auto. Qed.

Section EmitsProgram.
Context (P : effect -> Prop).
Hypothesis P_log : forall lvl fmt args, P (log lvl fmt args).
Hypothesis P_chassis : forall x y, P (chassis_speed x y zero).
Hypothesis P_gimbal : forall p q, P (gimbal_speed p q).
Hypothesis P_fire : P blaster_fire.

Lemma emits_update_gear g : emits P (_update_gear g).
Proof. unfold _update_gear. emits_steps. Qed.

Lemma emits_on_press k : emits P (on_press k).
Proof.
  pose proof (emits_send_command P P_log P_chassis P_gimbal).
  unfold on_press. emits_steps; auto.
Qed.

Lemma emits_on_release k : emits P (on_release k).
Proof.
  pose proof (emits_send_command P P_log P_chassis P_gimbal).
  pose proof emits_update_gear.
  unfold on_release. emits_steps; auto.
Qed.

Lemma emits_deliver e : emits P (deliver e).
Proof.
  intros w. unfold after, deliver.
  destruct (listening w); [|exists []; by rewrite app_nil_r].
  assert (Hcb : emits P (callback e))
    by (destruct e; [apply emits_on_press | apply emits_on_release]).
  destruct (Hcb w) as (fx & E & Hfx). unfold after in E.
  exists fx. destruct (callback e w) as [[[]|x] w1]; simpl in *; done.
Qed.

Lemma emits_handle_event : emits P handle_event.
Proof.
  intros w. unfold after. rewrite handle_event_eq. simpl.
  eexists. split; [reflexivity|].
  apply Forall_app. split.
  - destruct (push_queue w); simpl; repeat constructor; auto.
  - destruct (event_queue w) as [|e q]; simpl; [done|].
    destruct (is_ArmorHitEvent e); simpl; repeat constructor; auto.
Qed.

Lemma emits_step a : emits P (step a).
Proof.
  destruct a as [e| |p|e]; simpl.
  - apply emits_deliver.
  - apply emits_handle_event.
  - intros w. exists []. by rewrite app_nil_r.
  - intros w. exists []. by rewrite app_nil_r.
Qed.

Lemma run_emits acts w :
  exists fx, out (run acts w) = out w ++ fx /\ Forall P fx.
Proof.
  revert w. induction acts as [|a acts IH]; intros w; simpl.
  - exists []. by rewrite app_nil_r.
  - destruct (emits_step a w) as (fx & E & Hfx). unfold after in E.
    destruct (IH (snd (step a w))) as (fx' & E' & Hfx').
    exists (fx ++ fx'). rewrite E', E, app_assoc. split; [done|].
    by apply Forall_app.
Qed.
End EmitsProgram.

(** C10: every chassis-speed command has rotation 0: those
    [send_command] adds from any world, those a poll adds from any
    world, and so every one in the trace of any schedule of key events,
    polls and arriving messages. *)
Theorem chassis_rotation_always_zero :
  emits no_rotation send_command /\
  emits no_rotation handle_event /\
  forall acts, Forall no_rotation (out (run acts init)).
Proof.
  split; [by apply emits_send_command|].
  split; [by apply emits_handle_event|].
  intros acts.
  destruct (run_emits no_rotation) with (acts := acts) (w := init)
    as (fx & E & Hfx); try done.
  by rewrite E.
Qed.

(** C3: when [handle_event] draws a message from the event queue, it
    completes; if the message is an [ArmorHitEvent] the commands it
    issues in that poll are exactly one [chassis_speed(0, 0, 0)],
    whatever the controller holds, and for any other kind of event it
    issues no command.  The controller is not touched. *)
Theorem handle_event_safety_stop w e q :
  event_queue w = e :: q ->
  exists w',
    handle_event w = (Ok tt, w') /\
    event_queue w' = q /\
    controller w' = controller w /\
    commands (out w') =
      commands (out w)
        ++ match e with
           | ArmorHitEvent _ _ => [chassis_speed zero zero zero]
           | _ => []
           end.
Proof.
  intros He. eexists. split; [apply handle_event_eq|].
  rewrite He. simpl. repeat split.
  rewrite !commands_app. f_equal.
  assert (Hp : commands (poll_push_effects (push_queue w)) = [])
    by (by destruct (push_queue w)).
  rewrite Hp. by destruct e.
Qed.

(** *** The values a gear produces *)

Lemma gear_cases g : 1 <= g <= 5 -> g = 1 \/ g = 2 \/ g = 3 \/ g = 4 \/ g = 5.
Proof. lia. Qed.

(** Splits [at_some_gear unit x], for a concrete [unit], into the
    eleven values [x] can be. *)
Ltac gear_values H :=
  let g := fresh "g" in
  let m := fresh "m" in
  let Hg := fresh "Hg" in
  let Hm := fresh "Hm" in
  destruct H as (g & Hg & [->|(m & Hm & [->| ->])]);
  try (apply gear_cases in Hg;
       destruct Hg as [->|[->|[->|[->| ->]]]];
       vm_compute in Hm; injection Hm as <-).

(** On the values the program produces, Python's [==] is equality. *)
Lemma speed_eqb_eq x y :
  at_some_gear UNIT_DELTA_SPEED x -> at_some_gear UNIT_DELTA_SPEED y ->
  Py.eqb x y = true -> x = y.
Proof.
  intros Hx Hy. gear_values Hx; gear_values Hy; intros H;
    first [reflexivity | vm_compute in H; discriminate H].
Qed.

Lemma degree_eqb_eq x y :
  at_some_gear UNIT_DELTA_DEGREE x -> at_some_gear UNIT_DELTA_DEGREE y ->
  Py.eqb x y = true -> x = y.
Proof.
  intros Hx Hy. gear_values Hx; gear_values Hy; intros H;
    first [reflexivity | vm_compute in H; discriminate H].
Qed.

Lemma range_list_eq unit l1 l2 :
  (forall x y, at_some_gear unit x -> at_some_gear unit y -> Py.eqb x y = true -> x = y) ->
  in_range unit l1 -> in_range unit l2 -> Py.list_ne l1 l2 = false -> l1 = l2.
Proof.
  intros Heq (x1 & y1 & -> & Hx1 & Hy1) (x2 & y2 & -> & Hx2 & Hy2).
  unfold Py.list_ne. simpl. rewrite andb_true_r.
  intros H. apply negb_false_iff, andb_true_iff in H as [Hx Hy].
  by rewrite (Heq _ _ Hx1 Hx2 Hx), (Heq _ _ Hy1 Hy2 Hy).
Qed.

Lemma at_some_gear_self_equal_speed x :
  at_some_gear UNIT_DELTA_SPEED x -> Py.self_equal x.
Proof. intros Hx. gear_values Hx; reflexivity. Qed.

Lemma at_some_gear_self_equal_degree x :
  at_some_gear UNIT_DELTA_DEGREE x -> Py.self_equal x.
Proof. intros Hx. gear_values Hx; reflexivity. Qed.

Lemma in_range_length unit l : in_range unit l -> length l = 2%nat.
Proof. by intros (x & y & -> & _). Qed.

(** After [send_command] the last-sent vectors are the current ones. *)
Lemma Ranges_sent c : Ranges c -> Inv (sent c).
Proof.
  intros [Hgear Hdv Hdd Hv Hpv Hg Hpg]. unfold sent.
  destruct (Py.list_ne (v c) (previous_v c)) eqn:Ev;
    destruct (Py.list_ne (v_gimbal c) (previous_v_gimbal c)) eqn:Eg;
    (split; [by constructor | split; simpl]); try done; symmetry;
    first [ by apply (range_list_eq UNIT_DELTA_SPEED _ _ speed_eqb_eq)
          | by apply (range_list_eq UNIT_DELTA_DEGREE _ _ degree_eqb_eq) ].
Qed.

Lemma in_range_list_ne_refl_speed l :
  in_range UNIT_DELTA_SPEED l -> Py.list_ne l l = false.
Proof.
  intros (x & y & -> & Hx & Hy). apply list_ne_refl.
  repeat constructor; by apply at_some_gear_self_equal_speed.
Qed.

Lemma in_range_list_ne_refl_degree l :
  in_range UNIT_DELTA_DEGREE l -> Py.list_ne l l = false.
Proof.
  intros (x & y & -> & Hx & Hy). apply list_ne_refl.
  repeat constructor; by apply at_some_gear_self_equal_degree.
Qed.

(** Between handlers [send_command] has nothing to send. *)
Lemma Inv_sent c : Inv c -> sent c = c /\ send_effects c = [].
Proof.
  intros [[_ _ _ Hv _ Hg _] [Hpv Hpg]].
  unfold sent, send_effects. rewrite Hpv, Hpg.
  rewrite (in_range_list_ne_refl_speed _ Hv), (in_range_list_ne_refl_degree _ Hg).
  split.
  - destruct c; simpl in *. by subst.
  - destruct Hv as (x & y & -> & _), Hg as (p & q & -> & _). reflexivity.
Qed.

Lemma send_command_noop w : Inv (controller w) -> send_command w = (Ok tt, w).
Proof.
  intros HI. pose proof HI as [[_ _ _ Hv _ Hg _] _].
  rewrite send_command_eq by eauto using in_range_length.
  destruct (Inv_sent _ HI) as [-> ->].
  rewrite app_nil_r. by destruct w.
Qed.

Arguments send_command : simpl never.
Arguments sent : simpl never.
Arguments send_effects : simpl never.
Arguments py_mul : simpl never.

(** Runs a handler on a world given by its fields, up to the call of
    [send_command]. *)
Ltac handler_exec :=
  unfold callback, on_press, on_release, _update_gear, bind, call, self,
    set_self, v_setitem, v_gimbal_setitem, setitem, char_of, lift, ret, raise;
  simpl.

Lemma at_some_gear_zero unit : at_some_gear unit zero.
Proof. exists 1. split; [lia | by left]. Qed.

Lemma at_some_gear_pos unit g m :
  1 <= g <= 5 -> py_mul (Py.Int g) unit = Ok m -> at_some_gear unit m.
Proof. intros Hg Hm. exists g. split; [done|]. right. exists m. auto. Qed.

Lemma at_some_gear_neg unit g m :
  1 <= g <= 5 -> py_mul (Py.Int g) unit = Ok m -> at_some_gear unit (Py.neg m).
Proof. intros Hg Hm. exists g. split; [done|]. right. exists m. auto. Qed.

Create HintDb ranges.
#[local] Hint Resolve at_some_gear_zero at_some_gear_pos at_some_gear_neg : ranges.

(** Splits on the key tests of a handler and runs each branch through
    [send_command]. *)
Ltac handler_cases :=
  handler_exec;
  repeat (let Hk := fresh "Hk" in
          case_bool_decide as Hk;
          [try (apply list_elem_of_In in Hk; simpl in Hk; destruct_or? Hk; try done);
           simplify_eq/= | ]);
  rewrite ?andb_false_r, ?andb_true_r; simpl;
  repeat match goal with
         | |- context [if ?b then _ else _] => is_var b; destruct b; simpl
         end;
  rewrite ?send_command_eq by reflexivity; simpl.

Ltac solve_ranges :=
  constructor; simpl;
  lazymatch goal with
  | |- in_range _ _ =>
      eexists _, _; (split; [reflexivity|]); split; eauto with ranges
  | |- py_mul _ _ = _ => first [assumption | reflexivity]
  | |- _ => first [assumption | lia | by vm_compute]
  end.

Lemma chassis_commands_app tr1 tr2 :
  chassis_commands (tr1 ++ tr2) = chassis_commands tr1 ++ chassis_commands tr2.
Proof. apply List.filter_app. Qed.

Lemma gimbal_commands_app tr1 tr2 :
  gimbal_commands (tr1 ++ tr2) = gimbal_commands tr1 ++ gimbal_commands tr2.
Proof. apply List.filter_app. Qed.

(** An unchanged vector adds no command of its kind. *)
Lemma chassis_commands_send_effects c :
  Py.list_ne (v c) (previous_v c) = false -> chassis_commands (send_effects c) = [].
Proof.
  intros H. unfold send_effects. rewrite H.
  destruct (v c) as [|x [|y [|]]]; try done.
  destruct (v_gimbal c) as [|p [|q [|]]]; try done.
  by destruct (Py.list_ne _ (previous_v_gimbal c)).
Qed.

Lemma gimbal_commands_send_effects c :
  Py.list_ne (v_gimbal c) (previous_v_gimbal c) = false ->
  gimbal_commands (send_effects c) = [].
Proof.
  intros H. unfold send_effects. rewrite H.
  destruct (v c) as [|x [|y [|]]]; try done.
  destruct (v_gimbal c) as [|p [|q [|]]]; try done.
  by destruct (Py.list_ne _ (previous_v c)).
Qed.

(** Closes the goals left by [handler_cases] about a handler that
    started between two handlers: the invariant holds again, and a
    vector that did not change got no command. *)
Ltac solve_handler HI Hpv Hpg :=
  eexists _, _; (split; [reflexivity|]); simpl;
  split;
  [ first [ exact HI | apply Ranges_sent; solve_ranges | split; [solve_ranges | done] ]
  | split; [|split; [|split; [|split]]]; try done;
    intros E; rewrite ?chassis_commands_app, ?gimbal_commands_app; simpl;
    rewrite ?chassis_commands_send_effects, ?gimbal_commands_send_effects, ?app_nil_r;
    try done; simpl; rewrite ?E;
    first [ exact (in_range_list_ne_refl_speed _ Hpv)
          | exact (in_range_list_ne_refl_degree _ Hpg) ] ].

(** Any handler, started between two handlers, completes and restores
    the invariant; it touches neither the queues nor the listener, and
    it commands no speed for a vector it did not change. *)
Lemma callback_Inv e w :
  Inv (controller w) ->
  exists r w',
    callback e w = (Ok r, w') /\ Inv (controller w') /\
    push_queue w' = push_queue w /\ event_queue w' = event_queue w /\
    listening w' = listening w /\
    (v (controller w') = v (controller w) ->
     chassis_commands (out w') = chassis_commands (out w)) /\
    (v_gimbal (controller w') = v_gimbal (controller w) ->
     gimbal_commands (out w') = gimbal_commands (out w)).
Proof.
  intros HI.
  pose proof HI as [[Hgear Hdv Hdd (x & y & Hv & Hx & Hy) Hpv (p & q & Hg & Hp & Hq) Hpg] [Epv Epg]].
  destruct w as [[g dv dd vv pv vg pvg cp] pq eq li tr]; simpl in *. subst.
  destruct e as [k|k]; handler_cases.
  all: solve_handler HI Hpv Hpg.
Qed.

Lemma Inv_init : Inv __init__.
Proof.
  split; [|done]. constructor; simpl; try done;
    eexists _, _; (split; [reflexivity|]); split; apply at_some_gear_zero.
Qed.

Lemma deliver_Inv e w :
  Inv (controller w) ->
  completes (deliver e) w /\ Inv (controller (after (deliver e) w)).
Proof.
  intros HI. unfold completes, after, deliver.
  destruct (listening w); [|by eauto].
  destruct (callback_Inv e w HI) as (r & w' & -> & HI' & _).
  destruct r; simpl; eauto.
Qed.

Lemma step_Inv a w :
  Inv (controller w) -> completes (step a) w /\ Inv (controller (after (step a) w)).
Proof.
  intros HI. destruct a as [e| |p|e]; simpl.
  - by apply deliver_Inv.
  - unfold completes, after. rewrite handle_event_eq. simpl. eauto.
  - unfold completes, after. simpl. eauto.
  - unfold completes, after. simpl. eauto.
Qed.

Lemma run_Inv acts w : Inv (controller w) -> Inv (controller (run acts w)).
Proof.
  revert w. induction acts as [|a acts IH]; intros w HI; simpl; [done|].
  apply IH. by apply step_Inv.
Qed.

Lemma reachable_Inv w : reachable w -> Inv (controller w).
Proof. intros [acts ->]. apply run_Inv, Inv_init. Qed.

(** No worker ever raises: every action of every schedule completes. *)
Lemma run_completes acts a : completes (step a) (run acts init).
Proof. apply step_Inv, run_Inv, Inv_init. Qed.

Lemma in_range_Forall unit l : in_range unit l -> Forall (at_some_gear unit) l.
Proof. intros (x & y & -> & Hx & Hy). by repeat constructor. Qed.

(** C2, as amended: in every state the controller reaches, under any
    schedule of key events, polls and arriving messages, the gear is one
    of 1..5, each chassis component is 0 or plus or minus g * 0.2 and
    each gimbal component is 0 or plus or minus g * 20 for some gear g
    of 1..5 (not always the current one: a gear change leaves the
    velocities as they are); and a press of an axis key sets its
    component to plus or minus the magnitude of the current gear. *)
Theorem velocities_within_gears acts :
  let w := run acts init in
  let c := controller w in
  1 <= gear c <= 5 /\
  velocities_at_some_gear c /\
  forall k, k ∈ axis_keys ->
    exists m,
      py_mul (Py.Int (gear c)) (unit_of k) = Ok m /\
      (component k (controller (after (on_press k) w)) = Some m \/
       component k (controller (after (on_press k) w)) = Some (Py.neg m)).
Proof.
  intros w c. subst c.
  assert (HI : Inv (controller w)) by apply run_Inv, Inv_init.
  clearbody w.
  pose proof HI as [[Hgear Hdv Hdd Hv Hpv Hg Hpg] _].
  split; [done|]. split; [split; by eapply in_range_Forall|].
  intros k Hk. unfold after.
  destruct Hv as (x & y & Hv & _), Hg as (p & q & Hg & _).
  destruct w as [[g dv dd vv pv vg pvg cp] pq eq li tr]; simpl in *. subst.
  apply list_elem_of_In in Hk; simpl in Hk; destruct_or? Hk; try done; subst k;
    handler_cases; eauto.
Qed.

(** C2 fails as stated: press forward in gear 1, then release the digit
    2.  The gear is 2 and its magnitude 0.4, but the forward speed is
    still 0.2. *)
Lemma velocities_at_gear_counterexample :
  let c := controller
             (run [Keyboard (Down (KeyCode "w")); Keyboard (Up (KeyCode "2"))] init) in
  gear c = 2 /\
  v c = [Py.Float 0.2; Py.Int 0] /\
  py_mul (Py.Int (gear c)) UNIT_DELTA_SPEED = Ok (Py.Float 0.4) /\
  ~ velocities_at_gear c.
Proof.
  repeat split; try reflexivity.
  intros [H _]. apply Forall_inv in H.
  destruct H as [E|(m & Hm & [E|E])].
  - discriminate E.
  - vm_compute in Hm. injection Hm as <-.
    apply (f_equal (Py.eqb (Py.Float 0.2))) in E. vm_compute in E. discriminate E.
  - vm_compute in Hm. injection Hm as <-.
    apply (f_equal (Py.eqb (Py.Float 0.2))) in E. vm_compute in E. discriminate E.
Qed.

(** C9: in the initial state and after every schedule, [previous_v] is
    [v] and [previous_v_gimbal] is [v_gimbal]; any handler then
    completes and leaves them equal again, and a handler that leaves a
    vector as it was issues no speed command for it. *)
Theorem last_sent_is_current acts e :
  let w := run acts init in
  Synced (controller w) /\
  exists r w',
    callback e w = (Ok r, w') /\
    Synced (controller w') /\
    (v (controller w') = v (controller w) ->
     chassis_commands (out w') = chassis_commands (out w)) /\
    (v_gimbal (controller w') = v_gimbal (controller w) ->
     gimbal_commands (out w') = gimbal_commands (out w)).
Proof.
  intros w. pose proof (run_Inv acts init Inv_init) as HI. fold w in HI.
  split; [apply HI|].
  destruct (callback_Inv e w HI) as (r & w' & E & HI' & _ & _ & _ & Hc & Hg).
  exists r, w'. repeat split; try done; apply HI'.
Qed.

(** C8: between handlers, in any state the system reaches, a press or
    a release of a key that no branch tests for completes, adds only
    its debug line to the trace and leaves the controller, the queues
    and the listener as they were: no field changes, no command is
    issued. *)
Theorem unmapped_key_ignored acts k :
  k ∉ mapped_keys ->
  let w := run acts init in
  on_press k w =
    (Ok PyNone, with_out (out w ++ [log DEBUG "pressed: %s" [OKey k]]) w) /\
  on_release k w =
    (Ok PyNone, with_out (out w ++ [log DEBUG "released: %s" [OKey k]]) w) /\
  controller (after (on_press k) w) = controller w /\
  controller (after (on_release k) w) = controller w /\
  commands (out (after (on_press k) w)) = commands (out w) /\
  commands (out (after (on_release k) w)) = commands (out w).
Proof.
  intros Hnot w.
  assert (HI : Inv (controller w)) by apply run_Inv, Inv_init.
  clearbody w.
  assert (Hp : on_press k w =
    (Ok PyNone, with_out (out w ++ [log DEBUG "pressed: %s" [OKey k]]) w)).
  { pose proof HI as [[_ _ _ (x & y & Hv & _) _ (p & q & Hg & _) _] _].
    destruct w as [[g dv dd vv pv vg pvg cp] pq eq li tr]; simpl in *. subst.
    handler_cases;
      try by (exfalso; apply Hnot; apply list_elem_of_In; simpl; tauto).
    destruct (Inv_sent _ HI) as [-> ->]. by rewrite app_nil_r. }
  assert (Hr : on_release k w =
    (Ok PyNone, with_out (out w ++ [log DEBUG "released: %s" [OKey k]]) w)).
  { pose proof HI as [[_ _ _ (x & y & Hv & _) _ (p & q & Hg & _) _] _].
    destruct w as [[g dv dd vv pv vg pvg cp] pq eq li tr]; simpl in *. subst.
    handler_cases;
      try by (exfalso; apply Hnot; apply list_elem_of_In; simpl; tauto).
    destruct (Inv_sent _ HI) as [-> ->]. by rewrite app_nil_r. }
  unfold after. rewrite Hp, Hr. simpl.
  rewrite !commands_app. simpl. rewrite !app_nil_r. done.
Qed.

(** C4: a poll never touches the controller, so the armor-hit stop
    does not reset [previous_v]: when the poll draws an
    [ArmorHitEvent], the stop [chassis_speed(0, 0, 0)] becomes the last
    chassis command, and a [send_command] that runs next with [v] equal
    to [previous_v] completes without any chassis command and leaves
    [previous_v] as it was before the stop. *)
Theorem safety_stop_bypasses_state w i t q :
  event_queue w = ArmorHitEvent i t :: q ->
  two_vectors (controller w) ->
  Py.list_ne (v (controller w)) (previous_v (controller w)) = false ->
  let w1 := after handle_event w in
  controller w1 = controller w /\
  chassis_commands (out w1) =
    chassis_commands (out w) ++ [chassis_speed zero zero zero] /\
  exists w2,
    send_command w1 = (Ok tt, w2) /\
    chassis_commands (out w2) = chassis_commands (out w1) /\
    previous_v (controller w2) = previous_v (controller w) /\
    v (controller w2) = v (controller w).
Proof.
  intros He [Hv Hg] Hne w1. subst w1. unfold after.
  rewrite handle_event_eq, He. simpl.
  split; [done|]. split.
  - rewrite !chassis_commands_app. f_equal.
    by destruct (push_queue w).
  - rewrite send_command_eq by done. simpl.
    eexists. split; [reflexivity|]. simpl.
    rewrite (chassis_commands_app _ (send_effects _)),
      chassis_commands_send_effects, app_nil_r by done.
    split; [done|]. unfold sent. simpl. by rewrite Hne.
Qed.

(** A stopped listener delivers nothing more. *)
Lemma listener_stopped events w :
  listening w = false -> listener events w = (Ok tt, w).
Proof.
  intros Hl. induction events as [|e events IH]; simpl; [done|].
  unfold bind, deliver. by rewrite Hl.
Qed.

(** The quit chord from any world, in terms of the last-sent
    vectors. *)
Lemma quit_chord_eq w :
  ctrl_pressed (controller w) = true ->
  let c := controller w in
  let cv := Py.list_ne [zero; zero] (previous_v c) in
  let cg := Py.list_ne [zero; zero] (previous_v_gimbal c) in
  exists w',
    on_press (KeyCode "c") w = (Ok PyFalse, w') /\
    v (controller w') = [zero; zero] /\
    v_gimbal (controller w') = [zero; zero] /\
    previous_v (controller w') = (if cv then [zero; zero] else previous_v c) /\
    previous_v_gimbal (controller w') =
      (if cg then [zero; zero] else previous_v_gimbal c) /\
    commands (out w') =
      commands (out w)
        ++ (if cv then [chassis_speed zero zero zero] else [])
        ++ (if cg then [gimbal_speed zero zero] else []) /\
    (listening w = true ->
     forall rest,
       listener (Down (KeyCode "c") :: rest) w = (Ok tt, with_listening false w')).
Proof.
  intros Hcp c cv cg. subst c cv cg.
  destruct w as [[g dv dd vv pv vg pvg cp] pq eq li tr]; simpl in *. subst cp.
  assert (E : on_press (KeyCode "c")
                (mkWorld (mkController g dv dd vv pv vg pvg true) pq eq li tr) =
              (Ok PyFalse,
               with_out
                 ((tr ++ [log DEBUG "pressed: %s" [OKey (KeyCode "c")]])
                    ++ send_effects (mkController g dv dd [zero; zero] pv [zero; zero] pvg true))
                 (mkWorld (sent (mkController g dv dd [zero; zero] pv [zero; zero] pvg true))
                          pq eq li tr))).
  { handler_exec. by rewrite send_command_eq by reflexivity. }
  eexists. split; [exact E|].
  unfold sent, send_effects. simpl.
  repeat split.
  - rewrite !commands_app. simpl. rewrite app_nil_r. f_equal.
    destruct (Py.list_ne [zero; zero] pv), (Py.list_ne [zero; zero] pvg); reflexivity.
  - intros -> rest. simpl listener. unfold bind, deliver. simpl listening. cbv iota.
    unfold callback. rewrite E. unfold sent, send_effects. simpl.
    by rewrite listener_stopped.
Qed.

(** C5, as amended: with ctrl held, between two handlers (the
    last-sent vectors are the current ones), a press of 'c' completes,
    zeroes both vectors, runs [send_command] once and returns [False];
    the listener then stops and delivers no later key event.  The
    commands this adds are a [chassis_speed(0, 0, 0)] if the chassis
    vector differs from zero, then a [gimbal_speed(0, 0)] if the gimbal
    vector differs from zero, and nothing else: a group that is
    already at rest gets no command. *)
Theorem quit_chord w :
  ctrl_pressed (controller w) = true ->
  Synced (controller w) ->
  let c := controller w in
  let cv := Py.list_ne [zero; zero] (v c) in
  let cg := Py.list_ne [zero; zero] (v_gimbal c) in
  exists w',
    on_press (KeyCode "c") w = (Ok PyFalse, w') /\
    v (controller w') = [zero; zero] /\
    v_gimbal (controller w') = [zero; zero] /\
    previous_v (controller w') = (if cv then [zero; zero] else v c) /\
    previous_v_gimbal (controller w') = (if cg then [zero; zero] else v_gimbal c) /\
    commands (out w') =
      commands (out w)
        ++ (if cv then [chassis_speed zero zero zero] else [])
        ++ (if cg then [gimbal_speed zero zero] else []) /\
    (listening w = true ->
     forall rest,
       listener (Down (KeyCode "c") :: rest) w = (Ok tt, with_listening false w')).
Proof.
  intros Hcp [Hpv Hpg] c cv cg. subst c cv cg.
  destruct (quit_chord_eq w Hcp) as (w' & E & H1 & H2 & H3 & H4 & H5 & H6).
  rewrite Hpv, Hpg in *. by exists w'.
Qed.

(** C5 fails as stated: press forward, then ctrl, then 'c'.  A
    velocity component is nonzero when the chord arrives, the chassis is
    stopped, but no gimbal command is sent, by the chord or before. *)
Lemma quit_chord_counterexample :
  let w := run [Keyboard (Down (KeyCode "w")); Keyboard (Down Key.ctrl)] init in
  let w' := after (deliver (Down (KeyCode "c"))) w in
  ctrl_pressed (controller w) = true /\
  v (controller w) = [Py.Float 0.2; Py.Int 0] /\
  listening w' = false /\
  commands (out w') =
    [chassis_speed (Py.Float 0.2) (Py.Int 0) (Py.Int 0);
     chassis_speed (Py.Int 0) (Py.Int 0) (Py.Int 0)] /\
  last (gimbal_commands (out w')) <> Some (gimbal_speed (Py.Int 0) (Py.Int 0)).
Proof. repeat split; try reflexivity. vm_compute. discriminate. Qed.

Lemma v_sent c : v (sent c) = v c.
Proof. reflexivity. Qed.

Lemma v_gimbal_sent c : v_gimbal (sent c) = v_gimbal c.
Proof. reflexivity. Qed.

Lemma listener_app ev1 ev2 w :
  listener (ev1 ++ ev2) w = (listener ev1;; listener ev2) w.
Proof.
  revert w. induction ev1 as [|e ev1 IH]; intros w; simpl; [done|].
  unfold bind. destruct (deliver e w) as [[[]|x] w1]; [|done].
  by rewrite IH.
Qed.

(** A press or a release of an axis key or of a digit key completes,
    returns [None] and keeps the vectors at two elements; the release
    of an axis key leaves 0 in the component of the key. *)
Lemma axis_or_gear_callback e w :
  two_vectors (controller w) ->
  key_of e ∈ axis_keys ++ gear_keys ->
  exists w',
    callback e w = (Ok PyNone, w') /\
    two_vectors (controller w') /\
    listening w' = listening w /\
    (forall k, e = Up k -> k ∈ axis_keys -> component k (controller w') = Some zero).
Proof.
  intros [Hv Hg] Hk.
  destruct w as [[g dv dd vv pv vg pvg cp] pq eq li tr]; simpl in *.
  destruct vv as [|x [|y [|]]]; try discriminate Hv.
  destruct vg as [|p [|q [|]]]; try discriminate Hg.
  apply list_elem_of_In in Hk; simpl in Hk.
  destruct e as [k|k]; simpl in Hk; destruct_or? Hk; try done; subst k;
    handler_cases; eexists; (split; [reflexivity|]); simpl;
    (split; [done|]); (split; [done|]); intros k' Hk' Hax; simplify_eq;
    first [ reflexivity
          | exfalso; apply list_elem_of_In in Hax; simpl in Hax;
            destruct_or? Hax; done ].
Qed.

(** C6: from any controller with two-element vectors, whatever its
    gear and magnitudes, and any sequence of presses and releases of
    one axis key, with gear changes (presses and releases of digit
    keys) in between, the listener handles the whole sequence and the
    release of the axis key that follows; after that release the
    component the key drives is exactly 0. *)
Theorem release_zeroes_axis w k events :
  two_vectors (controller w) ->
  listening w = true ->
  k ∈ axis_keys ->
  Forall (fun e => key_of e = k \/ key_of e ∈ gear_keys) events ->
  exists w',
    listener (events ++ [Up k]) w = (Ok tt, w') /\
    listening w' = true /\
    component k (controller w') = Some zero.
Proof.
  intros Hw Hl Hk Hev.
  assert (Hrun : exists w1, listener events w = (Ok tt, w1) /\
                   two_vectors (controller w1) /\ listening w1 = true).
  { revert w Hw Hl. induction Hev as [|e events He _ IH]; intros w Hw Hl; simpl.
    - by exists w.
    - destruct (axis_or_gear_callback e w Hw) as (w1 & E & Hw1 & Hl1 & _).
      { apply elem_of_app. destruct He as [->|He]; [by left | by right]. }
      unfold bind, deliver. rewrite Hl, E.
      apply IH; [done | congruence]. }
  destruct Hrun as (w1 & E1 & Hw1 & Hl1).
  destruct (axis_or_gear_callback (Up k) w1 Hw1) as (w2 & E2 & Hw2 & Hl2 & Hz).
  { apply elem_of_app. by left. }
  exists w2. rewrite listener_app. unfold bind at 1. rewrite E1. simpl.
  unfold bind, deliver. rewrite Hl1, E2. simpl.
  split; [done|]. split; [congruence | by apply Hz].
Qed.

(** A handler changes no component but the one its key drives, the
    quit chord apart. *)
Lemma callback_frame e a w :
  two_vectors (controller w) ->
  axis_of (key_of e) <> Some a ->
  ~ is_quit_chord e (controller w) ->
  read a (controller (after (callback e) w)) = read a (controller w).
Proof.
  intros [Hv Hg] Ha Hq. unfold after, is_quit_chord in *.
  destruct w as [[g dv dd vv pv vg pvg cp] pq eq li tr]; simpl in *.
  destruct vv as [|x [|y [|]]]; try discriminate Hv.
  destruct vg as [|p [|q [|]]]; try discriminate Hg.
  destruct e as [k|k]; simpl in Ha; handler_cases;
    try (exfalso; apply Hq; by split);
    destruct a; try reflexivity; by destruct Ha.
Qed.

(** C7, as amended: a release of a digit key g of 1..5 completes, sets
    the gear to g and the two magnitudes to g * 0.2 and g * 20, adds
    only its debug line to the trace, so issues no command, and leaves
    the four vectors as they were.  A press of an axis key after it
    sets the component to plus or minus the new magnitude.  A
    component keeps its value through every handler but a press or a
    release of its own axis keys and the quit chord, which zeroes
    it. *)
Theorem gear_release_keeps_velocities w k :
  k ∈ gear_keys ->
  exists ch g m d,
    k = KeyCode ch /\ int_of_char ch = Ok g /\ 1 <= g <= 5 /\
    py_mul (Py.Int g) UNIT_DELTA_SPEED = Ok m /\
    py_mul (Py.Int g) UNIT_DELTA_DEGREE = Ok d /\
    let w' :=
      with_out (out w ++ [log DEBUG "released: %s" [OKey k]])
        (with_controller
           (with_delta_d d (with_delta_v m (with_gear g (controller w)))) w) in
    on_release k w = (Ok PyNone, w') /\
    commands (out w') = commands (out w) /\
    v (controller w') = v (controller w) /\
    v_gimbal (controller w') = v_gimbal (controller w) /\
    previous_v (controller w') = previous_v (controller w) /\
    previous_v_gimbal (controller w') = previous_v_gimbal (controller w) /\
    (two_vectors (controller w) ->
     forall k', k' ∈ axis_keys ->
       exists x,
         py_mul (Py.Int g) (unit_of k') = Ok x /\
         (component k' (controller (after (on_press k') w')) = Some x \/
          component k' (controller (after (on_press k') w')) = Some (Py.neg x))) /\
    (forall w'' e a,
       two_vectors (controller w'') ->
       axis_of (key_of e) <> Some a ->
       ~ is_quit_chord e (controller w'') ->
       read a (controller (after (callback e) w'')) = read a (controller w'')).
Proof.
  intros Hk.
  apply list_elem_of_In in Hk; simpl in Hk; destruct_or? Hk; try done; subst k.
  all: eexists _, _, _, _; (split; [reflexivity|]); (split; [reflexivity|]);
    (split; [by vm_compute|]); (split; [reflexivity|]); (split; [reflexivity|]);
    cbv zeta; (split; [by destruct w as [[] ? ? ? ?]|]);
    (split; [simpl; by rewrite commands_app, app_nil_r|]);
    do 4 (split; [reflexivity|]);
    (split; [|intros; by apply callback_frame]).
  all: intros [Hv Hg] k' Hk'; unfold after;
    destruct w as [[g dv dd vv pv vg pvg cp] pq eq li tr]; simpl in *;
    destruct vv as [|x [|y [|]]]; try discriminate Hv;
    destruct vg as [|p [|q [|]]]; try discriminate Hg;
    apply list_elem_of_In in Hk'; simpl in Hk'; destruct_or? Hk'; try done; subst k';
    handler_cases; eauto.
Qed.

(** C7 fails as stated: press forward in gear 1, release the digit 2,
    hold ctrl and press 'c'.  The forward speed set under gear 1 is
    zeroed by the chord, with no press or release of an axis key. *)
Lemma gear_release_counterexample :
  let w := run [Keyboard (Down (KeyCode "w")); Keyboard (Up (KeyCode "2"));
                Keyboard (Down Key.ctrl)] init in
  let w' := after (callback (Down (KeyCode "c"))) w in
  gear (controller w) = 2 /\
  read X (controller w) = Some (Py.Float 0.2) /\
  axis_of (KeyCode "c") = None /\
  read X (controller w') = Some (Py.Int 0).
Proof. repeat split; reflexivity. Qed.

(* ================================================================== *)
(** ** The theorems at concrete inputs *)

(** Decides a closed proposition by evaluation. *)
Ltac by_decide := apply (bool_decide_unpack _); vm_compute; exact I.

(** Forward is set and not sent yet: one chassis command, then
    nothing. *)
Lemma send_command_on_change_witness :
  let w := after (v_setitem 0 delta_v) init in
  exists w',
    send_command w = (Ok tt, w') /\
    commands (out w') = [chassis_speed (Py.Float 0.2) (Py.Int 0) (Py.Int 0)] /\
    previous_v (controller w') = [Py.Float 0.2; Py.Int 0] /\
    send_command w' = (Ok tt, w').
Proof.
  intros w.
  destruct (send_command_on_change w (Py.Float 0.2) (Py.Int 0) (Py.Int 0) (Py.Int 0)
              eq_refl eq_refl) as (w' & E & Hc & Hp & _ & _ & _ & Hagain).
  exists w'. split; [exact E|]. split; [exact Hc|]. split; [exact Hp|].
  apply Hagain. repeat constructor.
Defined.

Lemma handle_event_safety_stop_witness :
  let w := run [Keyboard (Down (KeyCode "w")); EventArrives (ArmorHitEvent 1 0)] init in
  exists w',
    handle_event w = (Ok tt, w') /\
    event_queue w' = [] /\
    controller w' = controller w /\
    commands (out w') =
      [chassis_speed (Py.Float 0.2) (Py.Int 0) (Py.Int 0);
       chassis_speed (Py.Int 0) (Py.Int 0) (Py.Int 0)].
Proof.
  intros w. exact (handle_event_safety_stop w (ArmorHitEvent 1 0) [] eq_refl).
Defined.

(** Forward is held, the armor is hit, the key repeats: the robot has
    been stopped and the repeated press sends nothing. *)
Lemma safety_stop_bypasses_state_witness :
  let w := run [Keyboard (Down (KeyCode "w")); EventArrives (ArmorHitEvent 1 0)] init in
  let w1 := after handle_event w in
  controller w1 = controller w /\
  chassis_commands (out w1) =
    [chassis_speed (Py.Float 0.2) (Py.Int 0) (Py.Int 0);
     chassis_speed (Py.Int 0) (Py.Int 0) (Py.Int 0)] /\
  exists w2,
    send_command w1 = (Ok tt, w2) /\
    chassis_commands (out w2) = chassis_commands (out w1) /\
    previous_v (controller w2) = [Py.Float 0.2; Py.Int 0] /\
    v (controller w2) = [Py.Float 0.2; Py.Int 0].
Proof.
  intros w.
  exact (safety_stop_bypasses_state w 1 0 [] eq_refl (conj eq_refl eq_refl) eq_refl).
Defined.

Lemma quit_chord_witness :
  let w := run [Keyboard (Down (KeyCode "w")); Keyboard (Down Key.up);
                Keyboard (Down Key.ctrl)] init in
  exists w',
    on_press (KeyCode "c") w = (Ok PyFalse, w') /\
    v (controller w') = [Py.Int 0; Py.Int 0] /\
    v_gimbal (controller w') = [Py.Int 0; Py.Int 0] /\
    commands (out w') =
      commands (out w)
        ++ [chassis_speed (Py.Int 0) (Py.Int 0) (Py.Int 0);
            gimbal_speed (Py.Int 0) (Py.Int 0)] /\
    listener [Down (KeyCode "c"); Down (KeyCode "w")] w =
      (Ok tt, with_listening false w').
Proof.
  intros w.
  destruct (quit_chord w eq_refl (conj eq_refl eq_refl))
    as (w' & E & Hv & Hg & _ & _ & Hc & Hl).
  exists w'. split; [exact E|]. split; [exact Hv|]. split; [exact Hg|].
  split; [exact Hc|]. apply Hl. reflexivity.
Defined.

Lemma release_zeroes_axis_witness :
  exists w',
    listener [Down (KeyCode "s"); Down (KeyCode "s"); Up (KeyCode "4");
              Up (KeyCode "s"); Down (KeyCode "s"); Up (KeyCode "s")] init
      = (Ok tt, w') /\
    listening w' = true /\
    component (KeyCode "s") (controller w') = Some (Py.Int 0).
Proof.
  apply (release_zeroes_axis init (KeyCode "s")
           [Down (KeyCode "s"); Down (KeyCode "s"); Up (KeyCode "4");
            Up (KeyCode "s"); Down (KeyCode "s")]).
  - split; reflexivity.
  - reflexivity.
  - by_decide.
  - repeat constructor; first [by left | right; by_decide].
Defined.

Lemma gear_release_keeps_velocities_witness :
  let w := run [Keyboard (Down (KeyCode "w"))] init in
  exists ch g m d,
    KeyCode "3" = KeyCode ch /\ int_of_char ch = Ok g /\ 1 <= g <= 5 /\
    py_mul (Py.Int g) UNIT_DELTA_SPEED = Ok m /\
    py_mul (Py.Int g) UNIT_DELTA_DEGREE = Ok d /\
    on_release (KeyCode "3") w =
      (Ok PyNone,
       with_out (out w ++ [log DEBUG "released: %s" [OKey (KeyCode "3")]])
         (with_controller
            (with_delta_d d (with_delta_v m (with_gear g (controller w)))) w)).
Proof.
  intros w.
  assert (Hk : KeyCode "3" ∈ gear_keys) by by_decide.
  destruct (gear_release_keeps_velocities w (KeyCode "3") Hk)
    as (ch & g & m & d & H1 & H2 & H3 & H4 & H5 & H6 & _).
  exists ch, g, m, d. repeat split; try assumption; apply H3.
Defined.

Lemma unmapped_key_ignored_witness :
  let w := run [Keyboard (Down (KeyCode "w"))] init in
  controller (after (on_press (KeyCode "x")) w) = controller w /\
  commands (out (after (on_release (KeyCode "x")) w)) = commands (out w).
Proof.
  intros w.
  assert (Hk : KeyCode "x" ∉ mapped_keys) by by_decide.
  destruct (unmapped_key_ignored [Keyboard (Down (KeyCode "w"))] (KeyCode "x") Hk)
    as (_ & _ & Hp & _ & _ & Hr).
  split; [exact Hp | exact Hr].
Defined.

Lemma velocities_within_gears_witness :
  let w := run [Keyboard (Down (KeyCode "w")); Keyboard (Up (KeyCode "2"))] init in
  exists m,
    py_mul (Py.Int 2) UNIT_DELTA_SPEED = Ok m /\
    (component (KeyCode "s") (controller (after (on_press (KeyCode "s")) w)) = Some m \/
     component (KeyCode "s") (controller (after (on_press (KeyCode "s")) w))
       = Some (Py.neg m)).
Proof.
  intros w.
  destruct (velocities_within_gears
              [Keyboard (Down (KeyCode "w")); Keyboard (Up (KeyCode "2"))])
    as (_ & _ & H).
  apply (H (KeyCode "s")). by_decide.
Defined.

(** A repeated press changes nothing and sends nothing. *)
Lemma last_sent_is_current_witness :
  let w := run [Keyboard (Down (KeyCode "w"))] init in
  exists r w',
    callback (Down (KeyCode "w")) w = (Ok r, w') /\
    chassis_commands (out w') = chassis_commands (out w).
Proof.
  intros w.
  destruct (last_sent_is_current [Keyboard (Down (KeyCode "w"))] (Down (KeyCode "w")))
    as (_ & r & w' & E & _ & Hc & _).
  exists r, w'. split; [exact E|]. apply Hc.
  change w' with (snd (Ok r, w')). rewrite <- E. reflexivity.
Defined.

(* ================================================================== *)
(** ** Scenarios *)

(** Gear 1: forward down, right down, forward up, right up.  Four
    chassis commands, one for each change, and nothing for the gimbal. *)
Example scenario_four_sends :
  commands
    (out (run [Keyboard (Down (KeyCode "w")); Keyboard (Down (KeyCode "d"));
               Keyboard (Up (KeyCode "w")); Keyboard (Up (KeyCode "d"))] init))
  = [chassis_speed (Py.Float 0.2) (Py.Int 0) (Py.Int 0);
     chassis_speed (Py.Float 0.2) (Py.Float 0.2) (Py.Int 0);
     chassis_speed (Py.Int 0) (Py.Float 0.2) (Py.Int 0);
     chassis_speed (Py.Int 0) (Py.Int 0) (Py.Int 0)].
Proof. reflexivity. Qed.

(** Forward then back without a release: the last press wins. *)
Example scenario_last_press_wins :
  v (controller (run [Keyboard (Down (KeyCode "w")); Keyboard (Down (KeyCode "s"))] init))
  = [Py.Float (-0.2); Py.Int 0].
Proof. reflexivity. Qed.

(** The third gear: 3 * 0.2 as binary64, and 3 * 20 as an int. *)
Example scenario_gear_three :
  let c := controller (run [Keyboard (Up (KeyCode "3")); Keyboard (Down (KeyCode "w"));
                            Keyboard (Down Key.down)] init) in
  gear c = 3 /\
  v c = [Py.Float 0.6000000000000001; Py.Int 0] /\
  v_gimbal c = [Py.Int (-60); Py.Int 0].
Proof. repeat split; reflexivity. Qed.

(** Forward is held, the armor is hit and the stop goes out, the key
    repeats: the controller still holds the speed it sent first, and
    the repeated press sends nothing. *)
Example scenario_armor_hit_then_repeat :
  let w := run [Keyboard (Down (KeyCode "w")); EventArrives (ArmorHitEvent 1 0);
                Poll; Keyboard (Down (KeyCode "w"))] init in
  commands (out w) =
    [chassis_speed (Py.Float 0.2) (Py.Int 0) (Py.Int 0);
     chassis_speed (Py.Int 0) (Py.Int 0) (Py.Int 0)] /\
  previous_v (controller w) = [Py.Float 0.2; Py.Int 0].
Proof. repeat split; reflexivity. Qed.

(** After the quit chord no key event is handled. *)
Example scenario_quit_then_keys :
  let w := run [Keyboard (Down Key.ctrl); Keyboard (Down (KeyCode "c"));
                Keyboard (Down (KeyCode "w"))] init in
  listening w = false /\ commands (out w) = [].
Proof. repeat split; reflexivity. Qed.

(** A poll on empty queues does nothing. *)
Example scenario_empty_poll : run [Poll] init = init.
Proof. reflexivity. Qed.


(* ================================================================== *)
(** ** Further properties of the handlers *)

(** Any handler on two-element vectors completes.  Either it returns
    early, with both vectors as they were, or it ends in
    [send_command], run on a controller [C] whose last-sent vectors are
    still those of the start.  What it adds to the trace before that
    holds no speed command.  It returns [False] on the quit chord
    only. *)
Lemma callback_shape e w :
  two_vectors (controller w) ->
  exists r pre C,
    (callback e w =
       (Ok r, with_out ((out w ++ pre) ++ send_effects C)
                (with_controller (sent C) w)) \/
     (callback e w = (Ok r, with_out (out w ++ pre) (with_controller C w)) /\
      v C = v (controller w) /\ v_gimbal C = v_gimbal (controller w))) /\
    chassis_commands pre = [] /\ gimbal_commands pre = [] /\
    two_vectors C /\
    previous_v C = previous_v (controller w) /\
    previous_v_gimbal C = previous_v_gimbal (controller w) /\
    (Ranges (controller w) -> Ranges C) /\
    (r = PyFalse <-> is_quit_chord e (controller w)).
Proof.
  intros [Hv Hg].
  destruct w as [[g dv dd vv pv vg pvg cp] pq eq li tr]; simpl in *.
  destruct vv as [|x [|y [|]]]; try discriminate Hv.
  destruct vg as [|p [|q [|]]]; try discriminate Hg.
  destruct e as [k|k]; handler_cases; eexists _, _, _;
    (split;
     [ lazymatch goal with
       | |- (?lhs = _) \/ _ =>
           lazymatch lhs with
           | context [send_effects] =>
               left; unfold with_out, with_controller; simpl; reflexivity
           | _ =>
               right;
               split; [unfold with_out, with_controller;
                       cbn [out controller push_queue event_queue listening];
                       rewrite <- ?app_assoc; reflexivity|];
               split; reflexivity
           end
       end
     | ]);
    (split; [reflexivity|]); (split; [reflexivity|]);
    (split; [split; reflexivity|]);
    (split; [reflexivity|]); (split; [reflexivity|]);
    (split;
     [ intros [Hgear Hdv Hdd (x0 & y0 & E1 & Hx & Hy) Hpv
                 (p0 & q0 & E2 & Hp & Hq) Hpg]; simpl in *; simplify_eq;
       constructor; simpl;
       first [ assumption
             | lazymatch goal with
               | |- in_range _ _ =>
                   eexists _, _; (split; [reflexivity|]); split; eauto with ranges
               | |- py_mul _ _ = _ => reflexivity
               | |- _ => first [lia | by vm_compute]
               end ]
     | unfold is_quit_chord; simpl;
       split; [ first [discriminate | intros _; by split]
              | intros [E Hcp]; first [discriminate | congruence | done] ] ]).
Qed.

(** What [send_command] adds for one group: the command with the
    current vector when it differs from the last-sent one, nothing
    otherwise. *)
Lemma chassis_commands_send C :
  two_vectors C ->
  exists x y,
    v C = [x; y] /\
    chassis_commands (send_effects C) =
      (if Py.list_ne (v C) (previous_v C) then [chassis_speed x y zero] else []).
Proof.
  intros [Hv Hg]. unfold send_effects.
  destruct (v C) as [|x [|y [|]]]; try discriminate Hv.
  destruct (v_gimbal C) as [|p [|q [|]]]; try discriminate Hg.
  exists x, y. split; [done|].
  by destruct (Py.list_ne [x; y] _), (Py.list_ne [p; q] _).
Qed.

Lemma gimbal_commands_send C :
  two_vectors C ->
  exists p q,
    v_gimbal C = [p; q] /\
    gimbal_commands (send_effects C) =
      (if Py.list_ne (v_gimbal C) (previous_v_gimbal C)
       then [gimbal_speed p q] else []).
Proof.
  intros [Hv Hg]. unfold send_effects.
  destruct (v C) as [|x [|y [|]]]; try discriminate Hv.
  destruct (v_gimbal C) as [|p [|q [|]]]; try discriminate Hg.
  exists p, q. split; [done|].
  by destruct (Py.list_ne [x; y] _), (Py.list_ne [p; q] _).
Qed.

Lemma two_vectors_sent C : two_vectors C -> two_vectors (sent C).
Proof. done. Qed.

Lemma Inv_two_vectors c : Inv c -> two_vectors c.
Proof. intros [[_ _ _ Hv _ Hg _] _]. split; by eapply in_range_length. Qed.


Lemma two_vectors_inv c :
  two_vectors c -> exists x y p q, v c = [x; y] /\ v_gimbal c = [p; q].
Proof.
  intros [Hv Hg].
  destruct (v c) as [|x [|y [|]]]; try discriminate Hv.
  destruct (v_gimbal c) as [|p [|q [|]]]; try discriminate Hg.
  by exists x, y, p, q.
Qed.

(** X2: between handlers, in any state the system reaches, a handler
    issues a chassis-speed command exactly when it leaves a chassis
    vector that differs from the one it found, and the command carries
    the new vector; the same holds for the gimbal.  Every change is
    reported once, with the new values, and nothing else is. *)
Theorem change_reported acts e :
  let w := run acts init in
  let w' := after (callback e) w in
  exists x y p q,
    v (controller w') = [x; y] /\
    v_gimbal (controller w') = [p; q] /\
    chassis_commands (out w') =
      chassis_commands (out w)
        ++ (if Py.list_ne (v (controller w')) (v (controller w))
            then [chassis_speed x y zero] else []) /\
    gimbal_commands (out w') =
      gimbal_commands (out w)
        ++ (if Py.list_ne (v_gimbal (controller w')) (v_gimbal (controller w))
            then [gimbal_speed p q] else []).
Proof.
  intros w w'. subst w'.
  assert (HI : Inv (controller w)) by apply run_Inv, Inv_init.
  clearbody w. unfold after.
  pose proof HI as [[_ _ _ Hv _ Hg _] [Epv Epg]].
  destruct (callback_shape e w (Inv_two_vectors _ HI))
    as (r & pre & C & Hcb & Hc & Hgc & HC & HpC & HpgC & _ & _).
  destruct Hcb as [E|(E & EvC & EgC)]; rewrite E; simpl.
  - destruct (chassis_commands_send C HC) as (x & y & Ev & Ecc).
    destruct (gimbal_commands_send C HC) as (p & q & Eg & Egc).
    exists x, y, p, q.
    rewrite !chassis_commands_app, !gimbal_commands_app, Hc, Hgc, Ecc, Egc, !app_nil_r.
    by rewrite HpC, HpgC, Epv, Epg.
  - destruct (two_vectors_inv C HC) as (x & y & p & q & Ev & Eg).
    exists x, y, p, q.
    rewrite !chassis_commands_app, !gimbal_commands_app, Hc, Hgc, EvC, EgC.
    rewrite (in_range_list_ne_refl_speed _ Hv), (in_range_list_ne_refl_degree _ Hg).
    by rewrite <- EvC, <- EgC.
Qed.

(** *** The robot is told the current vectors *)

Lemma gimbal_told_send tr pre C :
  two_vectors C -> gimbal_commands pre = [] ->
  gimbal_told tr (previous_v_gimbal C) ->
  gimbal_told ((tr ++ pre) ++ send_effects C) (previous_v_gimbal (sent C)).
Proof.
  intros HC Hpre H. destruct (gimbal_commands_send C HC) as (p & q & Eg & Egc).
  unfold gimbal_told in *.
  rewrite !gimbal_commands_app, Hpre, Egc, app_nil_r. unfold sent. simpl.
  destruct (Py.list_ne _ _).
  - rewrite last_snoc. by exists p, q.
  - by rewrite app_nil_r.
Qed.

Lemma chassis_told_send tr pre C :
  two_vectors C -> chassis_commands pre = [] ->
  chassis_told tr (previous_v C) ->
  chassis_told ((tr ++ pre) ++ send_effects C) (previous_v (sent C)).
Proof.
  intros HC Hpre H. destruct (chassis_commands_send C HC) as (x & y & Ev & Ecc).
  unfold chassis_told in *.
  rewrite !chassis_commands_app, Hpre, Ecc, app_nil_r. unfold sent. simpl.
  destruct (Py.list_ne _ _).
  - rewrite last_snoc. by exists x, y.
  - by rewrite app_nil_r.
Qed.

Lemma chassis_told_or_stopped_send tr pre C :
  two_vectors C -> chassis_commands pre = [] ->
  chassis_told_or_stopped tr (previous_v C) ->
  chassis_told_or_stopped ((tr ++ pre) ++ send_effects C) (previous_v (sent C)).
Proof.
  intros HC Hpre [H|H]; [|right; by apply chassis_told_send].
  destruct (chassis_commands_send C HC) as (x & y & Ev & Ecc).
  unfold chassis_told_or_stopped, chassis_told in *.
  rewrite !chassis_commands_app, Hpre, Ecc, app_nil_r. unfold sent. simpl.
  destruct (Py.list_ne _ _).
  - right. rewrite last_snoc. by exists x, y.
  - left. by rewrite app_nil_r.
Qed.

Lemma callback_Told e w : Told w -> Told (after (callback e) w).
Proof.
  intros [Hw Hg Hc]. unfold after.
  destruct (callback_shape e w Hw)
    as (r & pre & C & Hcb & Hpc & Hpg & HC & HpC & HpgC & _ & _).
  destruct Hcb as [E|(E & EvC & EgC)]; rewrite E; simpl.
  - constructor; simpl.
    + done.
    + apply gimbal_told_send; [done | done | by rewrite HpgC].
    + apply chassis_told_or_stopped_send; [done | done | by rewrite HpC].
  - constructor; simpl.
    + done.
    + unfold gimbal_told in *.
      by rewrite gimbal_commands_app, Hpg, app_nil_r, HpgC.
    + unfold chassis_told_or_stopped, chassis_told in *.
      by rewrite chassis_commands_app, Hpc, app_nil_r, HpC.
Qed.

Lemma callback_ToldExactly e w : ToldExactly w -> ToldExactly (after (callback e) w).
Proof.
  intros [Hw Hc Hq]. unfold after.
  destruct (callback_shape e w Hw)
    as (r & pre & C & Hcb & Hpc & Hpg & HC & HpC & HpgC & _ & _).
  destruct Hcb as [E|(E & EvC & EgC)]; rewrite E; simpl.
  - constructor; simpl; [done| |done].
    apply chassis_told_send; [done | done | by rewrite HpC].
  - constructor; simpl; [done| |done].
    unfold chassis_told in *.
    by rewrite chassis_commands_app, Hpc, app_nil_r, HpC.
Qed.

(** A delivery leaves what the callback leaves, up to the listener
    flag, or nothing when the listener has stopped. *)
Lemma deliver_cases e w :
  two_vectors (controller w) ->
  after (deliver e) w = w \/
  after (deliver e) w = after (callback e) w \/
  after (deliver e) w = with_listening false (after (callback e) w).
Proof.
  intros Hw. unfold after, deliver. destruct (listening w); [|by left].
  destruct (callback_shape e w Hw) as (r & pre & C & Hcb & _).
  destruct Hcb as [E|(E & _)]; rewrite E; destruct r; simpl; auto.
Qed.

Lemma step_Told a w : Told w -> Told (after (step a) w).
Proof.
  intros HT. destruct a as [e| |p|e]; simpl.
  - destruct (deliver_cases e w (told_two _ HT)) as [->|[->| ->]]; [done| |].
    + by apply callback_Told.
    + by destruct (callback_Told e w HT).
  - unfold after. rewrite handle_event_eq. simpl.
    destruct HT as [Hw Hg Hc]. constructor; simpl; [done| |].
    + unfold gimbal_told in *. rewrite !gimbal_commands_app.
      assert (E1 : gimbal_commands (poll_push_effects (push_queue w)) = [])
        by (by destruct (push_queue w)).
      assert (E2 : gimbal_commands (poll_event_effects (event_queue w)) = [])
        by (destruct (event_queue w) as [|[] ?]; done).
      by rewrite E1, E2, !app_nil_r.
    + unfold chassis_told_or_stopped, chassis_told in *.
      rewrite !chassis_commands_app.
      assert (E1 : chassis_commands (poll_push_effects (push_queue w)) = [])
        by (by destruct (push_queue w)).
      rewrite E1, app_nil_l.
      destruct (event_queue w) as [|[] ?]; simpl; rewrite ?app_nil_r; try done.
      left. by rewrite last_snoc.
  - by destruct HT.
  - by destruct HT.
Qed.

Lemma step_ToldExactly a w :
  match a with EventArrives (ArmorHitEvent _ _) => False | _ => True end ->
  ToldExactly w -> ToldExactly (after (step a) w).
Proof.
  intros Ha HT. destruct a as [e| |p|e]; simpl.
  - destruct (deliver_cases e w (exact_two _ HT)) as [->|[->| ->]]; [done| |].
    + by apply callback_ToldExactly.
    + by destruct (callback_ToldExactly e w HT).
  - unfold after. rewrite handle_event_eq. simpl.
    destruct HT as [Hw Hc Hq]. constructor; simpl; [done| |].
    + unfold chassis_told in *. rewrite !chassis_commands_app.
      assert (E1 : chassis_commands (poll_push_effects (push_queue w)) = [])
        by (by destruct (push_queue w)).
      assert (E2 : chassis_commands (poll_event_effects (event_queue w)) = []).
      { destruct (event_queue w) as [|e q]; [done|].
        apply Forall_inv in Hq. simpl. by rewrite Hq. }
      by rewrite E1, E2, !app_nil_r.
    + destruct (event_queue w); [done|]. by apply Forall_inv_tail in Hq.
  - by destruct HT.
  - destruct HT as [Hw Hc Hq]. constructor; simpl; try done.
    unfold put. case_bool_decide; [|done].
    apply Forall_app. split; [done|]. constructor; [|done]. by destruct e.
Qed.

Lemma run_Told acts w : Told w -> Told (run acts w).
Proof.
  revert w. induction acts as [|a acts IH]; intros w HT; simpl; [done|].
  apply IH. by apply step_Told.
Qed.

Lemma run_ToldExactly acts w :
  no_armor_hit acts -> ToldExactly w -> ToldExactly (run acts w).
Proof.
  intros Hacts. revert w.
  induction Hacts as [|a acts Ha _ IH]; intros w HT; simpl; [done|].
  apply IH. by apply step_ToldExactly.
Qed.

Lemma Told_init : Told init.
Proof. constructor; simpl; [done | done | by right]. Qed.

Lemma ToldExactly_init : ToldExactly init.
Proof. by constructor. Qed.



(** X3: after any schedule of key events, polls and arriving
    messages, the last gimbal-speed command in the trace carries the
    current gimbal vector; while no gimbal command was issued, the
    gimbal vector is at rest.  The robot's gimbal is always told what
    the controller holds. *)
Theorem gimbal_always_told acts :
  let w := run acts init in
  gimbal_told (out w) (v_gimbal (controller w)).
Proof.
  intros w. subst w.
  destruct (run_Inv acts init Inv_init) as [_ [_ <-]].
  apply (run_Told acts init Told_init).
Qed.

(** X4: after any schedule, the last chassis-speed command in the
    trace is the armor-hit stop or carries the current chassis vector
    (with none issued, the vector is at rest); in a schedule without
    armor hits it always carries the current chassis vector. *)
Theorem chassis_told_unless_hit acts :
  let w := run acts init in
  chassis_told_or_stopped (out w) (v (controller w)) /\
  (no_armor_hit acts -> chassis_told (out w) (v (controller w))).
Proof.
  intros w. subst w.
  destruct (run_Inv acts init Inv_init) as [_ [<- _]].
  split.
  - apply (run_Told acts init Told_init).
  - intros Hacts. apply (run_ToldExactly acts init Hacts ToldExactly_init).
Qed.

(** *** The commanded speeds stay within the gears *)

Lemma no_speed_within pre :
  chassis_commands pre = [] -> gimbal_commands pre = [] -> Forall within_gears pre.
Proof.
  induction pre as [|e pre IH]; [done|].
  destruct e; simpl; try discriminate; intros Hc Hg;
    (constructor; [exact I | exact (IH Hc Hg)]).
Qed.

Lemma send_effects_within C : Ranges C -> Forall within_gears (send_effects C).
Proof.
  intros [_ _ _ (x & y & Ev & Hx & Hy) _ (p & q & Eg & Hp & Hq) _].
  unfold send_effects. rewrite Ev, Eg.
  destruct (Py.list_ne [x; y] _), (Py.list_ne [p; q] _); simpl;
    repeat constructor; done.
Qed.

Lemma callback_within e w :
  Inv (controller w) -> Forall within_gears (out w) ->
  Forall within_gears (out (after (callback e) w)).
Proof.
  intros HI Hout. unfold after.
  destruct (callback_shape e w (Inv_two_vectors _ HI))
    as (r & pre & C & Hcb & Hpc & Hpg & _ & _ & _ & HR & _).
  destruct Hcb as [E|(E & _)]; rewrite E; simpl.
  - repeat (apply Forall_app; split); try done.
    + by apply no_speed_within.
    + apply send_effects_within, HR, HI.
  - apply Forall_app. split; [done | by apply no_speed_within].
Qed.

Lemma step_within a w :
  Inv (controller w) -> Forall within_gears (out w) ->
  Forall within_gears (out (after (step a) w)).
Proof.
  intros HI Hout. destruct a as [e| |p|e]; simpl; try done.
  - destruct (deliver_cases e w (Inv_two_vectors _ HI)) as [->|[->| ->]]; [done| |];
      by apply callback_within.
  - unfold after. rewrite handle_event_eq. simpl.
    repeat (apply Forall_app; split); try done.
    + destruct (push_queue w); simpl; repeat constructor.
    + destruct (event_queue w) as [|ev q]; simpl; [done|].
      destruct (is_ArmorHitEvent ev); simpl; repeat constructor;
        apply at_some_gear_zero.
Qed.

(** X5: under any schedule, every speed command sent to the robot has
    components that are 0 or plus or minus the magnitude of one of the
    gears 1..5: the chassis is never commanded beyond 5 * 0.2 and the
    gimbal never beyond 5 * 20 on any axis. *)
Theorem commands_within_gears acts :
  Forall within_gears (out (run acts init)).
Proof.
  assert (H : forall w, Inv (controller w) -> Forall within_gears (out w) ->
                Forall within_gears (out (run acts w))).
  { induction acts as [|a acts IH]; intros w HI Hout; simpl; [done|].
    apply IH; [by apply step_Inv | by apply step_within]. }
  apply H; [apply Inv_init | done].
Qed.

(** *** A stopped session is at rest *)






(** *** Polls *)


(** *** What a handler leaves alone *)

(** X8: on two-element vectors, the gear and the two magnitudes change
    only when a digit key is released, and the modifier flag only on a
    press or release of ctrl; every other handler, the quit chord
    included, leaves them as they are. *)
Theorem gear_and_modifier_frame e w :
  two_vectors (controller w) ->
  let c := controller w in
  let c' := controller (after (callback e) w) in
  ((forall k, e = Up k -> k ∉ gear_keys) ->
   gear c' = gear c /\ delta_v c' = delta_v c /\ delta_d c' = delta_d c) /\
  (key_of e <> Special Key.ctrl -> ctrl_pressed c' = ctrl_pressed c).
Proof.
  intros [Hv Hg] c c'. subst c c'. unfold after.
  destruct w as [[g dv dd vv pv vg pvg cp] pq eq li tr]; simpl in *.
  destruct vv as [|x [|y [|]]]; try discriminate Hv.
  destruct vg as [|p [|q [|]]]; try discriminate Hg.
  destruct e as [k|k]; handler_cases; unfold sent; simpl;
    (split; intros Hyp); try done;
    exfalso; eapply Hyp; first [reflexivity | by_decide].
Qed.

(** X9: keys are tested in one direction only.  Between handlers, in
    any state the system reaches, a digit key going down, fire or 'c'
    going up, and 'c' going down without ctrl held, leave the
    controller as it was and issue no command: the gear changes on the
    release of a digit, not on its press, and 'c' alone does not
    quit. *)
Theorem other_direction_ignored acts e :
  let w := run acts init in
  other_direction e (controller w) ->
  controller (after (callback e) w) = controller w /\
  commands (out (after (callback e) w)) = commands (out w) /\
  fst (callback e w) = Ok PyNone.
Proof.
  intros w He.
  assert (HI : Inv (controller w)) by apply run_Inv, Inv_init.
  clearbody w. unfold after.
  pose proof HI as [[_ _ _ (x & y & Hv & _) _ (p & q & Hg & _) _] _].
  destruct w as [[g dv dd vv pv vg pvg cp] pq eq li tr]; simpl in *. subst.
  destruct e as [k|k]; simpl in He.
  - destruct He as [Hk|[-> ->]].
    + apply list_elem_of_In in Hk; simpl in Hk; destruct_or? Hk; try done; subst k;
        handler_cases; destruct (Inv_sent _ HI) as [-> ->];
        rewrite !commands_app; simpl; by rewrite !app_nil_r.
    + handler_cases. destruct (Inv_sent _ HI) as [-> ->].
      rewrite !commands_app; simpl; by rewrite !app_nil_r.
  - destruct He as [->| ->]; handler_cases; destruct (Inv_sent _ HI) as [-> ->];
      rewrite !commands_app; simpl; by rewrite !app_nil_r.
Qed.

(* ================================================================== *)
(** ** The further properties at concrete inputs *)


Lemma chassis_told_unless_hit_witness :
  let w := run [Keyboard (Down (KeyCode "w")); Poll; Keyboard (Down (KeyCode "d"))] init in
  chassis_told (out w) (v (controller w)).
Proof.
  intros w.
  apply (chassis_told_unless_hit
           [Keyboard (Down (KeyCode "w")); Poll; Keyboard (Down (KeyCode "d"))]).
  repeat constructor.
Defined.


Lemma gear_and_modifier_frame_witness :
  let w := run [Keyboard (Up (KeyCode "3")); Keyboard (Down Key.ctrl)] init in
  let c' := controller (after (callback (Down (KeyCode "c"))) w) in
  gear c' = 3 /\ ctrl_pressed c' = true.
Proof.
  intros w c'.
  destruct (gear_and_modifier_frame (Down (KeyCode "c")) w (conj eq_refl eq_refl))
    as [Hgear Hctrl].
  split.
  - apply Hgear. intros k Hk. discriminate Hk.
  - apply Hctrl. discriminate.
Defined.

Lemma other_direction_ignored_witness :
  let w := run [Keyboard (Down (KeyCode "w"))] init in
  controller (after (callback (Down (KeyCode "5"))) w) = controller w /\
  commands (out (after (callback (Down (KeyCode "5"))) w)) = commands (out w).
Proof.
  intros w.
  assert (H : other_direction (Down (KeyCode "5")) (controller w))
    by (left; by_decide).
  destruct (other_direction_ignored [Keyboard (Down (KeyCode "w"))]
              (Down (KeyCode "5")) H) as (Hc & Ho & _).
  split; [exact Hc | exact Ho].
Defined.
